(** * Excel to i18n JSON converter: a shallow embedding and its properties

    This development embeds [skill/scripts/excel_to_i18n_json.py] (the class
    [ExcelToI18nConverter]) and proves properties of its column arithmetic,
    row parsing, extraction loop and serialisation.

    Modelling conventions.
    - Python [str] is [string]: a text is held as its UTF-8 bytes, and
      white space ([str.strip], [str.isspace]) is recognised on the UTF-8
      encoding of each of the characters Python counts as white space.
      Letters and digits ([str.isalpha], [str.upper], [int]) are embedded
      on the ASCII range; a byte above 127 is neither a letter nor a digit,
      and [upper] leaves it alone.
    - Python [int] is [Z].
    - A Python [dict] whose iteration order is observable (the result
      mapping, the sheet registry, the language columns) is an insertion
      ordered association list, [odict]; the per-row cell mapping, which is
      only looked up and asked for its largest key, is a [gmap Z string].
    - An XML part is the element tree [xml.etree.ElementTree] builds from it;
      the archive is a finite map from member names to such trees, and the
      file system a finite map from paths to files.
    - Exceptions are the [Raise] results of an error monad, identified by
      their class; messages are not part of the model.
    - Paths are taken as normalised (no dot components, no doubled or
      trailing slash) and every directory as writable; the progress lines
      go to a standard output that accepts them. *)

From Stdlib Require Import ZArith Ascii String List Lia DecimalString.
From stdpp Require Import base option list gmap strings.

Local Open Scope Z_scope.
Set Warnings "-register-all".

(** ** Python text primitives *)

Module Py.

Definition ord (c : ascii) : Z := Z.of_N (N_of_ascii c).
Definition chr (z : Z) : ascii := ascii_of_N (Z.to_N z).

Definition between (lo hi : Z) (c : ascii) : bool :=
  (lo <=? ord c) && (ord c <=? hi).

(** White space as [str.isspace] and [str.strip] see it, on the UTF-8 bytes
    of a character.  One byte: TAB..CR, FS..US and the blank. *)
Definition isspace (c : ascii) : bool := between 9 13 c || between 28 32 c.

(** Two bytes: U+0085 and U+00A0. *)
Definition isspace2 (c d : ascii) : bool :=
  (ord c =? 194) && ((ord d =? 133) || (ord d =? 160)).

(** Three bytes: U+1680, U+2000 to U+200A, U+2028, U+2029, U+202F, U+205F
    and U+3000. *)
Definition isspace3 (c d e : ascii) : bool :=
  ((ord c =? 225) && (ord d =? 154) && (ord e =? 128))
  || ((ord c =? 226) && (ord d =? 128)
      && (between 128 138 e || between 168 169 e || (ord e =? 175)))
  || ((ord c =? 226) && (ord d =? 129) && (ord e =? 159))
  || ((ord c =? 227) && (ord d =? 128) && (ord e =? 128)).

(** [str.isalpha] on one character. *)
Definition isalpha (c : ascii) : bool := between 65 90 c || between 97 122 c.

Definition upper_char (c : ascii) : ascii :=
  if between 97 122 c then chr (ord c - 32) else c.

(** [s.upper()] *)
Fixpoint upper (s : string) : string :=
  match s with
  | EmptyString => EmptyString
  | String c r => String (upper_char c) (upper r)
  end.

(** [''.join([c for c in s if c.isalpha()])] *)
Fixpoint only_alpha (s : string) : string :=
  match s with
  | EmptyString => EmptyString
  | String c r => if isalpha c then String c (only_alpha r) else only_alpha r
  end.

(** What follows the first character of [s] when that character is white
    space. *)
Definition after_space (s : string) : option string :=
  match s with
  | EmptyString => None
  | String c r =>
      if isspace c then Some r
      else match r with
           | EmptyString => None
           | String d r1 =>
               if isspace2 c d then Some r1
               else match r1 with
                    | EmptyString => None
                    | String e r2 => if isspace3 c d e then Some r2 else None
                    end
           end
  end.

(** [s.lstrip()] *)
Fixpoint lstrip (s : string) : string :=
  match s with
  | EmptyString => EmptyString
  | String c r =>
      if isspace c then lstrip r
      else match r with
           | EmptyString => s
           | String d r1 =>
               if isspace2 c d then lstrip r1
               else match r1 with
                    | EmptyString => s
                    | String e r2 => if isspace3 c d e then lstrip r2 else s
                    end
           end
  end.

(** [s.isspace()] or [s == '']: nothing but white space characters. *)
Fixpoint whitespace_only (s : string) : bool :=
  match s with
  | EmptyString => true
  | String c r =>
      if isspace c then whitespace_only r
      else match r with
           | EmptyString => false
           | String d r1 =>
               if isspace2 c d then whitespace_only r1
               else match r1 with
                    | EmptyString => false
                    | String e r2 => isspace3 c d e && whitespace_only r2
                    end
           end
  end.

(** [s.rstrip()]: cut where only white space follows. *)
Fixpoint rstrip (s : string) : string :=
  match s with
  | EmptyString => EmptyString
  | String c r => if whitespace_only s then EmptyString else String c (rstrip r)
  end.

(** [s.strip()] *)
Definition strip (s : string) : string := rstrip (lstrip s).

(** [s.startswith(p)] *)
Definition startswith (s p : string) : bool := String.prefix p s.

(** The scan of [s.replace(old, new)] for a non-empty [old]: occurrences
    are taken from the left and do not overlap; [skip] counts the
    characters of an occurrence still to be dropped. *)
Fixpoint replace_from (old new : string) (skip : nat) (s : string) : string :=
  match s with
  | EmptyString => EmptyString
  | String c r =>
      match skip with
      | S k => replace_from old new k r
      | O =>
          if String.prefix old s
          then new +:+ replace_from old new (String.length old - 1) r
          else String c (replace_from old new 0 r)
      end
  end.

Fixpoint follow_each (new s : string) : string :=
  match s with
  | EmptyString => EmptyString
  | String c r => String c (new +:+ follow_each new r)
  end.

(** [s.replace(old, new)] *)
Definition replace (s old new : string) : string :=
  match old with
  | EmptyString => new +:+ follow_each new s
  | _ => replace_from old new 0 s
  end.

(** [str(i)] for an integer. *)
Definition str (i : Z) : string := NilEmpty.string_of_int (Z.to_int i).

(** White space as [int] skips it (C [isspace]). *)
Definition c_isspace (c : ascii) : bool := between 9 13 c || between 32 32 c.

Definition digit (c : ascii) : option Z :=
  if between 48 57 c then Some (ord c - 48) else None.

Fixpoint skip_space (s : string) : string :=
  match s with
  | EmptyString => EmptyString
  | String c r => if c_isspace c then skip_space r else s
  end.

(** The digits after the first one; a single underscore may precede each. *)
Fixpoint more_digits (acc : Z) (s : string) : option (Z * string) :=
  match s with
  | EmptyString => Some (acc, EmptyString)
  | String c r =>
      match digit c with
      | Some d => more_digits (acc * 10 + d) r
      | None =>
          if Ascii.eqb c "_"
          then match r with
               | String c2 r2 =>
                   match digit c2 with
                   | Some d => more_digits (acc * 10 + d) r2
                   | None => None
                   end
               | EmptyString => None
               end
          else Some (acc, s)
      end
  end.

Definition unsigned (s : string) : option Z :=
  match s with
  | String c r =>
      match digit c with
      | Some d =>
          match more_digits d r with
          | Some (v, rest) =>
              match skip_space rest with
              | EmptyString => Some v
              | _ => None
              end
          | None => None
          end
      | None => None
      end
  | EmptyString => None
  end.

(** [int(s)] for a string, base ten; [None] stands for [ValueError]. *)
Definition int (s : string) : option Z :=
  match skip_space s with
  | String "+" r => unsigned r
  | String "-" r => Z.opp <$> unsigned r
  | s' => unsigned s'
  end.

End Py.

(** ** Column letters *)

(** [get_column_index]: the loop body is [index = index * 26 + (ord(char) -
    ord('A') + 1)]. *)
Fixpoint column_loop (index : Z) (s : string) : Z :=
  match s with
  | EmptyString => index
  | String char r => column_loop (index * 26 + (Py.ord char - Py.ord "A" + 1)) r
  end.

Definition get_column_index (col_ref : string) : Z :=
  column_loop 0 (Py.upper col_ref) - 1.

(** ** Exceptions *)

Inductive exn : Set :=
| FileNotFoundError | IsADirectoryError | NotADirectoryError
| BadZipFile | ParseError
| KeyError | TypeError | IndexError | ValueError.

Inductive res (A : Type) : Type :=
| Ok (a : A)
| Raise (e : exn).
Arguments Ok {A} a.
Arguments Raise {A} e.

#[global] Instance res_ret : MRet res := fun A a => Ok a.
#[global] Instance res_bind : MBind res := fun A B f m =>
  match m with
  | Ok a => f a
  | Raise e => Raise e
  end.

(** The error kinds the command line front end tells apart ([main]):
    [FileNotFoundError], [ValueError], and everything else. *)
Inductive error_kind : Set := NotFound | Validation | Unexpected.

Definition kind_of (e : exn) : error_kind :=
  match e with
  | FileNotFoundError => NotFound
  | ValueError => Validation
  | _ => Unexpected
  end.

(** ** Insertion-ordered dictionaries *)

Section odict.
Context {K V : Type} `{EqDecision K}.

(** [d.get(k)] *)
Fixpoint dict_get (d : list (K * V)) (k : K) : option V :=
  match d with
  | [] => None
  | (k', v') :: r => if decide (k = k') then Some v' else dict_get r k
  end.

(** [d[k] = v]: a key already present keeps its place. *)
Fixpoint dict_set (d : list (K * V)) (k : K) (v : V) : list (K * V) :=
  match d with
  | [] => [(k, v)]
  | (k', v') :: r =>
      if decide (k = k') then (k', v) :: r else (k', v') :: dict_set r k v
  end.

Definition dict_keys (d : list (K * V)) : list K := d.*1.

(** [k in d] *)
Definition dict_has (d : list (K * V)) (k : K) : bool :=
  bool_decide (is_Some (dict_get d k)).
End odict.

Abbreviation odict K V := (list (K * V)).

(** [l[i]] on a list: a negative index counts from the end. *)
Definition list_getitem {A} (l : list A) (i : Z) : res A :=
  let n := Z.of_nat (length l) in
  let j := if i <? 0 then i + n else i in
  if (0 <=? j) && (j <? n)
  then match l !! Z.to_nat j with
       | Some x => Ok x
       | None => Raise IndexError
       end
  else Raise IndexError.

(** [l.index(x) if x in l else None] *)
Fixpoint list_index (l : list string) (x : string) : option Z :=
  match l with
  | [] => None
  | y :: r => if decide (y = x) then Some 0 else Z.succ <$> list_index r x
  end.

(** ** Element trees *)

Inductive element : Type :=
| Element (tag : string) (attrib : list (string * string))
          (text : option string) (children : list element).

Definition tag_of (e : element) : string :=
  match e with Element t _ _ _ => t end.
Definition text_of (e : element) : option string :=
  match e with Element _ _ t _ => t end.
Definition children_of (e : element) : list element :=
  match e with Element _ _ _ c => c end.

(** [e.get(name)] *)
Definition attr (e : element) (name : string) : option string :=
  match e with Element _ a _ _ => dict_get a name end.

(** [e.iter()]: the element and its descendants in document order. *)
Fixpoint iter (e : element) : list element :=
  match e with
  | Element _ _ _ cs => e :: flat_map iter cs
  end.

(** [e.findall('.//tag')]: every descendant with that tag. *)
Definition findall (e : element) (tag : string) : list element :=
  List.filter (fun x => String.eqb (tag_of x) tag) (flat_map iter (children_of e)).

(** [e.find('.//tag')] *)
Definition find (e : element) (tag : string) : option element :=
  head (findall e tag).

Definition main_ns : string :=
  "http://schemas.openxmlformats.org/spreadsheetml/2006/main".
Definition rel_ns : string :=
  "http://schemas.openxmlformats.org/officeDocument/2006/relationships".
Definition pkg_rel_ns : string :=
  "http://schemas.openxmlformats.org/package/2006/relationships".

Definition qname (ns local : string) : string := "{" +:+ ns +:+ "}" +:+ local.

(** ['main:x'] resolved with [self.ns]. *)
Definition main (local : string) : string := qname main_ns local.

(** A truthy text: present and not empty. *)
Definition truthy (t : option string) : option string :=
  match t with
  | Some EmptyString => None
  | other => other
  end.

(** ** Archives and files *)

(** A member of the archive: bytes [ET.fromstring] parses to a tree, or
    bytes it rejects. *)
Inductive member : Type :=
| Xml (root : element)
| Malformed.

Inductive file : Type :=
| ZipFile (members : gmap string member)
| OtherFile (content : string)
| Directory.

(** [ET.fromstring(zip_ref.read(name))] *)
Definition read_xml (zip_ref : gmap string member) (name : string) : res element :=
  match zip_ref !! name with
  | None => Raise KeyError
  | Some Malformed => Raise ParseError
  | Some (Xml root) => Ok root
  end.

(** ** The converter *)

Definition join_texts (l : list string) : string := foldr String.append EmptyString l.

Definition load_shared_strings (zip_ref : gmap string member) : res (list string) :=
  match zip_ref !! "xl/sharedStrings.xml" with
  | None => Ok []
  | Some Malformed => Raise ParseError
  | Some (Xml sst_root) =>
      Ok ((fun si =>
             join_texts (omap (fun t => truthy (text_of t)) (findall si (main "t"))))
            <$> findall sst_root (main "si"))
  end.

Definition find_sheet_path (zip_ref : gmap string member) (sheet_name : option string)
  : res (string * option string) :=
  wb_root ← read_xml zip_ref "xl/workbook.xml";
  let sheets : odict (option string) (option string) :=
    foldl (fun sheets sheet =>
             dict_set sheets (attr sheet "name") (attr sheet (qname rel_ns "id")))
          [] (findall wb_root (main "sheet")) in
  target ←
    match sheets with
    | [] => Raise ValueError
    | (first_name, first_rid) :: _ =>
        match truthy sheet_name with
        | Some name =>
            match dict_get sheets (Some name) with
            | Some rid => Ok (Some name, rid)
            | None =>
                (* [", ".join(sheets.keys())] refuses a key that is None *)
                if forallb (fun k => bool_decide (is_Some k)) (dict_keys sheets)
                then Raise ValueError else Raise TypeError
            end
        | None => Ok (first_name, first_rid)
        end
    end;
  let '(target_name, target_rid) := target in
  rels_root ← read_xml zip_ref "xl/_rels/workbook.xml.rels";
  match List.filter (fun rel => bool_decide (attr rel "Id" = target_rid))
                    (findall rels_root (qname pkg_rel_ns "Relationship")) with
  | rel :: _ =>
      match attr rel "Target" with
      | Some t => Ok ("xl/" +:+ t, target_name)
      | None => Raise TypeError
      end
  | [] => Raise ValueError
  end.

(** One iteration of the loop of [parse_row]. *)
Definition parse_cell (shared_strings : list string) (max_col : Z)
    (cells_dict : gmap Z string) (cell : element) : res (gmap Z string) :=
  match attr cell "r" with
  | None => Raise TypeError
  | Some cell_ref =>
      let col_letter := Py.only_alpha cell_ref in
      let col_idx := get_column_index col_letter in
      if max_col <? col_idx then Ok cells_dict
      else
        match find cell (main "v") ≫= (fun v => truthy (text_of v)) with
        | None => Ok cells_dict
        | Some v_text =>
            if bool_decide (attr cell "t" = Some "s")
            then
              match Py.int v_text with
              | None => Raise ValueError
              | Some idx =>
                  if idx <? Z.of_nat (length shared_strings)
                  then s ← list_getitem shared_strings idx;
                       Ok (<[col_idx := s]> cells_dict)
                  else Ok cells_dict
              end
            else Ok (<[col_idx := v_text]> cells_dict)
        end
  end.

Fixpoint parse_cells (shared_strings : list string) (max_col : Z)
    (cells_dict : gmap Z string) (cells : list element) : res (gmap Z string) :=
  match cells with
  | [] => Ok cells_dict
  | cell :: rest =>
      cells_dict' ← parse_cell shared_strings max_col cells_dict cell;
      parse_cells shared_strings max_col cells_dict' rest
  end.

Definition parse_row (row_elem : element) (shared_strings : list string) (max_col : Z)
  : res (gmap Z string) :=
  parse_cells shared_strings max_col ∅ (findall row_elem (main "c")).

(** The keyword arguments of [convert_to_i18n_json]. *)
Record options : Type := {
  sheet_name : option string;
  start_row : Z;
  end_row : option Z;
  key_column : string;
  default_column : string;
  default_lang : string;
  exclude_columns : option (gset string);
  use_abbrev : bool
}.

Definition default_exclude_columns : gset string :=
  {[ "特殊说明"; "is_android"; "location" ]}.

(** The defaults of the signature. *)
Definition default_options : options := {|
  sheet_name := None;
  start_row := 2;
  end_row := None;
  key_column := "key";
  default_column := "default";
  default_lang := "en";
  exclude_columns := None;
  use_abbrev := true
|}.

(** [max(d.keys())], when there is a key. *)
Definition max_key (d : gmap Z string) : option Z :=
  foldr (fun k acc => Some (from_option (Z.max k) k acc)) None (map_to_list d).*1.

(** [cells.get(i, '').strip()] *)
Definition cell_text (cells : gmap Z string) (i : Z) : string :=
  Py.strip (default EmptyString (cells !! i)).

Definition header_max_col (header_cells : gmap Z string) : Z :=
  default 0 (max_key header_cells).

(** The header list: a column without header text is named [col_<i>]. *)
Definition build_headers (header_cells : gmap Z string) : list string :=
  (fun i =>
     match cell_text header_cells i with
     | EmptyString => "col_" +:+ Py.str i
     | header => header
     end) <$> seqZ 0 (header_max_col header_cells + 1).

(** [header.replace('_r', '-').replace('_', '-')] *)
Definition abbreviate (header : string) : string :=
  Py.replace (Py.replace header "_r" "-") "_" "-".

Definition is_language_header (meta_columns : gset string) (header : string) : bool :=
  negb (String.eqb header EmptyString)
  && bool_decide (header ∉ meta_columns)
  && negb (Py.startswith header "col_").

(** [enumerate(headers)] from a given first index. *)
Fixpoint enumerate_from (i : Z) (l : list string) : list (Z * string) :=
  match l with
  | [] => []
  | x :: r => (i, x) :: enumerate_from (Z.succ i) r
  end.

(** The tag of a language column. *)
Definition tag_of_header (o : options) (header : string) : string :=
  if use_abbrev o then abbreviate header else header.

Definition language_step (meta_columns : gset string) (abbrev : bool)
    (language_columns : odict Z string) (ih : Z * string) : odict Z string :=
  let '(idx, header) := ih in
  if is_language_header meta_columns header
  then dict_set language_columns idx (if abbrev then abbreviate header else header)
  else language_columns.

(** [{key_column, default_column} | exclude_columns] *)
Definition meta_columns (o : options) : gset string :=
  {[ key_column o; default_column o ]}
    ∪ default default_exclude_columns (exclude_columns o).

Definition identify_language_columns (o : options) (headers : list string)
  : odict Z string :=
  foldl (language_step (meta_columns o) (use_abbrev o)) [] (enumerate_from 0 headers).

Abbreviation result_map := (list (string * list (string * string))).

(** [if lang not in result: result[lang] = {}] then [result[lang][key] = value] *)
Definition add_text (result : result_map) (lang key value : string) : result_map :=
  let result1 := if dict_has result lang then result else dict_set result lang [] in
  dict_set result1 lang (dict_set (default [] (dict_get result1 lang)) key value).

(** The effective key of a row. *)
Definition text_id_of (key_value default_value : string) : string :=
  match key_value with
  | EmptyString => default_value
  | _ => key_value
  end.

Definition key_value_of (key_idx : option Z) (cells_dict : gmap Z string) : string :=
  match key_idx with
  | Some k => cell_text cells_dict k
  | None => EmptyString
  end.

(** The inner loop over [language_columns.items()]. *)
Definition add_languages (language_columns : odict Z string)
    (cells_dict : gmap Z string) (text_id : string) (result : result_map)
  : result_map :=
  foldl (fun result '(col_idx, lang_code) =>
           match cell_text cells_dict col_idx with
           | EmptyString => result
           | text_value => add_text result lang_code text_id text_value
           end) result language_columns.

(** What is fixed once the header row has been read. *)
Record layout : Type := {
  max_col : Z;
  language_columns : odict Z string;
  key_idx : option Z;
  default_idx : Z;
  actual_end_row : Z
}.

(** The body of the extraction loop once the cells of the row are known. *)
Definition extract_cells (o : options) (y : layout) (cells_dict : gmap Z string)
    (result : result_map) : result_map :=
  let key_value := key_value_of (key_idx y) cells_dict in
  let default_value := cell_text cells_dict (default_idx y) in
  match default_value with
  | EmptyString => result
  | _ =>
      let text_id := text_id_of key_value default_value in
      add_languages (language_columns y) cells_dict text_id
        (add_text result (default_lang o) text_id default_value)
  end.

(** [int(row_elem.get('r'))] *)
Definition row_number (row_elem : element) : res Z :=
  match attr row_elem "r" with
  | None => Raise TypeError
  | Some r =>
      match Py.int r with
      | None => Raise ValueError
      | Some n => Ok n
      end
  end.

Definition in_range (o : options) (y : layout) (row_num : Z) : bool :=
  (start_row o <=? row_num) && (row_num <=? actual_end_row y).

(** One iteration of [for row_elem in rows]. *)
Definition extract_row (o : options) (y : layout) (shared_strings : list string)
    (result : result_map) (row_elem : element) : res result_map :=
  row_num ← row_number row_elem;
  if in_range o y row_num
  then cells_dict ← parse_row row_elem shared_strings (max_col y);
       Ok (extract_cells o y cells_dict result)
  else Ok result.

Fixpoint extract_rows (o : options) (y : layout) (shared_strings : list string)
    (result : result_map) (rows : list element) : res result_map :=
  match rows with
  | [] => Ok result
  | row_elem :: rest =>
      result' ← extract_row o y shared_strings result row_elem;
      extract_rows o y shared_strings result' rest
  end.

(** [end_row if end_row else len(rows)] *)
Definition effective_end_row (o : options) (rows : list element) : Z :=
  match end_row o with
  | Some e => if e =? 0 then Z.of_nat (length rows) else e
  | None => Z.of_nat (length rows)
  end.

(** From the header row to the layout; the default column must be there. *)
Definition read_layout (o : options) (shared_strings : list string)
    (rows : list element) : res layout :=
  match rows with
  | [] => Raise ValueError
  | first_row_elem :: _ =>
      header_cells ← parse_row first_row_elem shared_strings 100;
      let headers := build_headers header_cells in
      match list_index headers (default_column o) with
      | None => Raise ValueError
      | Some d =>
          Ok {| max_col := header_max_col header_cells;
                language_columns := identify_language_columns o headers;
                key_idx := list_index headers (key_column o);
                default_idx := d;
                actual_end_row := effective_end_row o rows |}
      end
  end.

(** Everything [convert_to_i18n_json] does with the open archive before it
    opens the output file. *)
Definition extract (zip_ref : gmap string member) (o : options) : res result_map :=
  shared_strings ← load_shared_strings zip_ref;
  '(sheet_path, _) ← find_sheet_path zip_ref (sheet_name o);
  sheet_root ← read_xml zip_ref sheet_path;
  let rows := findall sheet_root (main "row") in
  y ← read_layout o shared_strings rows;
  extract_rows o y shared_strings [] rows.

(** ** Serialisation: [json.dump(result, f, ensure_ascii=False, indent=2)] *)

Module Json.

Definition quote : ascii := Py.chr 34.
Definition backslash : ascii := Py.chr 92.
Definition newline : string := String (Py.chr 10) EmptyString.

Definition hex_digit (n : Z) : ascii :=
  default "0"%char (String.get (Z.to_nat n) "0123456789abcdef").

(** The escapes of [json.encoder.ESCAPE_DCT]. *)
Definition escape (c : ascii) : string :=
  let n := Py.ord c in
  let esc (x : string) := String backslash x in
  if n =? 34 then esc (String quote EmptyString)
  else if n =? 92 then esc (String backslash EmptyString)
  else if n =? 8 then esc "b"
  else if n =? 9 then esc "t"
  else if n =? 10 then esc "n"
  else if n =? 12 then esc "f"
  else if n =? 13 then esc "r"
  else if n <? 32
       then esc ("u00" +:+ String (hex_digit (n / 16)) (String (hex_digit (n mod 16)) EmptyString))
       else String c EmptyString.

Fixpoint escape_all (s : string) : string :=
  match s with
  | EmptyString => EmptyString
  | String c r => escape c +:+ escape_all r
  end.

(** [encode_basestring] *)
Definition encode_str (s : string) : string :=
  String quote (escape_all s +:+ String quote EmptyString).

Fixpoint join (sep : string) (l : list string) : string :=
  match l with
  | [] => EmptyString
  | [x] => x
  | x :: r => x +:+ sep +:+ join sep r
  end.

(** An object whose members are already encoded, at nesting [level]. *)
Definition encode_object (level : nat) (members : list (string * string)) : string :=
  match members with
  | [] => "{}"
  | _ =>
      let indent n := join_texts (replicate n "  ") in
      let newline_indent := newline +:+ indent (S level) in
      "{" +:+ newline_indent
      +:+ join ("," +:+ newline_indent)
            ((fun '(k, v) => encode_str k +:+ ": " +:+ v) <$> members)
      +:+ newline +:+ indent level +:+ "}"
  end.

Definition dumps (result : result_map) : string :=
  encode_object 0
    ((fun '(lang, texts) =>
        (lang, encode_object 1 ((fun '(k, v) => (k, encode_str v)) <$> texts)))
       <$> result).

End Json.

(** ** The whole conversion, on a file system *)

(** The directory part of a path: what precedes its last slash, if it has
    one. *)
Fixpoint dirname (path : string) : option string :=
  match path with
  | EmptyString => None
  | String c r =>
      match dirname r with
      | Some d => Some (String c d)
      | None => if Ascii.eqb c "/" then Some EmptyString else None
      end
  end.

(** Whether [open(path, 'w')] succeeds: the path must not be empty nor name
    a directory, and the directory it lies in must be there.  A path without
    slash lies in the working directory, a path right under [/] in the
    root. *)
Definition open_w (fs : gmap string file) (path : string) : res unit :=
  match path with
  | EmptyString => Raise FileNotFoundError
  | _ =>
      match fs !! path with
      | Some Directory => Raise IsADirectoryError
      | _ =>
          match dirname path with
          | None | Some EmptyString => Ok ()
          | Some parent =>
              match fs !! parent with
              | Some Directory => Ok ()
              | Some _ => Raise NotADirectoryError
              | None => Raise FileNotFoundError
              end
          end
      end
  end.

(** Every statement of [convert_to_i18n_json] before [open(output_path, 'w')]
    only reads the input archive; the output file is opened once the result
    is complete, and the one write is the dump of that result. *)
Definition convert_to_i18n_json (fs : gmap string file)
    (input_path output_path : string) (o : options) : gmap string file * res unit :=
  match fs !! input_path with
  | None => (fs, Raise FileNotFoundError)
  | Some Directory => (fs, Raise IsADirectoryError)
  | Some (OtherFile _) => (fs, Raise BadZipFile)
  | Some (ZipFile zip_ref) =>
      match extract zip_ref o with
      | Raise e => (fs, Raise e)
      | Ok result =>
          match open_w fs output_path with
          | Raise e => (fs, Raise e)
          | Ok _ => (<[output_path := OtherFile (Json.dumps result)]> fs, Ok ())
          end
      end
  end.

(** ** A small workbook builder, for concrete sheets *)

Module Build.

Definition v (t : string) : element := Element (main "v") [] (Some t) [].

(** An inline cell [<c r=ref><v>t</v></c>]. *)
Definition c (ref t : string) : element :=
  Element (main "c") [("r", ref)] None [v t].

(** A shared-string cell [<c r=ref t="s"><v>i</v></c>]. *)
Definition cs (ref i : string) : element :=
  Element (main "c") [("r", ref); ("t", "s")] None [v i].

Definition row (r : string) (cells : list element) : element :=
  Element (main "row") [("r", r)] None cells.

Definition sheet (rows : list element) : element :=
  Element (main "worksheet") [] None [Element (main "sheetData") [] None rows].

Definition workbook : element :=
  Element (main "workbook") [] None
    [Element (main "sheets") [] None
       [Element (main "sheet")
          [("name", "Sheet1"); ("sheetId", "1"); (qname rel_ns "id", "rId1")]
          None []]].

Definition rels : element :=
  Element (qname pkg_rel_ns "Relationships") [] None
    [Element (qname pkg_rel_ns "Relationship")
       [("Id", "rId1"); ("Target", "worksheets/sheet1.xml")] None []].

Definition sst (strings : list string) : element :=
  Element (main "sst") [] None
    ((fun s => Element (main "si") [] None [Element (main "t") [] (Some s) []])
       <$> strings).

(** A one-sheet workbook with the given shared strings and rows. *)
Definition xlsx (strings : list string) (rows : list element) : gmap string member :=
  {[ "xl/workbook.xml" := Xml workbook;
     "xl/_rels/workbook.xml.rels" := Xml rels;
     "xl/sharedStrings.xml" := Xml (sst strings);
     "xl/worksheets/sheet1.xml" := Xml (sheet rows) ]}.

End Build.

(** ** Reference definitions the properties are stated against *)

(** Column letters: capital A to Z only. *)
Fixpoint column_letters (s : string) : bool :=
  match s with
  | EmptyString => true
  | String c r => Py.between 65 90 c && column_letters r
  end.

Definition alphabet : string := "ABCDEFGHIJKLMNOPQRSTUVWXYZ".

(** The digit a letter stands for: its place in the alphabet, from 1; there
    is no digit 0. *)
Definition letter_digit (c : ascii) : Z :=
  match String.index 0 (String c EmptyString) alphabet with
  | Some i => Z.of_nat i + 1
  | None => 0
  end.

(** The value of a bijective base-26 numeral, most significant letter first. *)
Fixpoint bijective_value (s : string) : Z :=
  match s with
  | EmptyString => 0
  | String c r => letter_digit c * 26 ^ Z.of_nat (String.length r) + bijective_value r
  end.

(** The inverse mapping: the numeral of a positive value, least significant
    letter first; [fuel] bounds the number of letters. *)
Fixpoint numeral_of (fuel : nat) (n : Z) (acc : string) : string :=
  match fuel with
  | O => acc
  | S fuel' =>
      if n <=? 0 then acc
      else numeral_of fuel' ((n - 1) / 26)
             (String (default "A"%char (String.get (Z.to_nat ((n - 1) mod 26)) alphabet)) acc)
  end.

(** The letters of a zero-based column index. *)
Definition letters_of_index (index : Z) : string :=
  numeral_of (Z.to_nat (index + 1)) (index + 1) EmptyString.

(** Tag normalisation in one pass: an underscore followed by [r] becomes a
    hyphen, any other underscore becomes a hyphen. *)
Fixpoint normalize_tag (s : string) : string :=
  match s with
  | EmptyString => EmptyString
  | String c r =>
      if Ascii.eqb c "_"
      then String "-"
             match r with
             | String c2 r2 => if Ascii.eqb c2 "r" then normalize_tag r2 else normalize_tag r
             | EmptyString => normalize_tag r
             end
      else String c (normalize_tag r)
  end.

(** The text stored for a key under a language, if any. *)
Definition text_at (result : result_map) (lang key : string) : option string :=
  dict_get result lang ≫= (fun texts => dict_get texts key).

(** What it is for [t] to be [raw] trimmed: [raw] is [t] between two runs
    of white space, and [t] neither begins nor ends with white space. *)
Definition no_space_at_ends (t : string) : Prop :=
  (forall w rest, t = w +:+ rest -> Py.whitespace_only w = true -> w = EmptyString)
  /\ (forall rest w, t = rest +:+ w -> Py.whitespace_only w = true -> w = EmptyString).

Definition is_trim_of (raw t : string) : Prop :=
  (exists l r, raw = l +:+ t +:+ r
               /\ Py.whitespace_only l = true /\ Py.whitespace_only r = true)
  /\ no_space_at_ends t.

(** U+3000, the ideographic space, and U+00A0, the no-break space. *)
Definition ideographic_space : string :=
  String (Py.chr 227) (String (Py.chr 128) (String (Py.chr 128) EmptyString)).
Definition no_break_space : string :=
  String (Py.chr 194) (String (Py.chr 160) EmptyString).

(** ** Sample workbooks *)

Module Sample.
Import Build.

Definition strings : list string := ["s0"; "s1"; "s2"; "s3"; "s4"].

Definition header : element :=
  row "1" [c "A1" "key"; c "B1" "default"; c "C1" "zh_rCN"; c "D1" "fr"].

(** Three data rows: a keyed row with a shared-string translation, a row
    without key, and a row without default text. *)
Definition translations : gmap string member :=
  xlsx strings
    [ header;
      row "2" [c "A2" "greeting"; c "B2" " Hello "; cs "C2" "2"; c "D2" "Bonjour"];
      row "3" [c "A3" "  "; c "B3" "Hello"; c "D3" "   "];
      row "4" [c "A4" "orphan"; c "C4" "x"] ].

(** A row with an empty key cell and the default text "Hello". *)
Definition self_keyed : gmap string member :=
  xlsx [] [ header; row "2" [c "A2" " "; c "B2" "Hello"] ].

(** Blank rows 2 to 4 are not stored: the sheet holds rows 1 and 5 only. *)
Definition sparse_rows : list element :=
  [ header; row "5" [c "A5" "late"; c "B5" "Five"] ].
Definition sparse : gmap string member := xlsx [] sparse_rows.

(** The header row lacks the default column. *)
Definition no_default : gmap string member :=
  xlsx [] [ row "1" [c "A1" "key"; c "B1" "zh_rCN"]; row "2" [c "A2" "k"; c "B2" "v"] ].

Definition with_end (e : Z) : options := {|
  sheet_name := None; start_row := 2; end_row := Some e;
  key_column := "key"; default_column := "default"; default_lang := "en";
  exclude_columns := None; use_abbrev := true
|}.

End Sample.

(** Letters of either case, as [str.isalpha] sees them on ASCII. *)
Fixpoint ascii_letters (s : string) : bool :=
  match s with
  | EmptyString => true
  | String c r => Py.isalpha c && ascii_letters r
  end.

(** Reads one escaped character back from the front of a JSON string body;
    the inverse of [Json.escape], used to show that escaping loses nothing. *)
Definition unescape_one (s : string) : option (ascii * string) :=
  let hex (c : ascii) : Z :=
    match String.index 0 (String c EmptyString) "0123456789abcdef" with
    | Some i => Z.of_nat i
    | None => 0
    end in
  match s with
  | EmptyString => None
  | String c r =>
      if Ascii.eqb c Json.backslash
      then match r with
           | String e r' =>
               if Ascii.eqb e Json.quote then Some (Json.quote, r')
               else if Ascii.eqb e Json.backslash then Some (Json.backslash, r')
               else if Ascii.eqb e "b" then Some (Py.chr 8, r')
               else if Ascii.eqb e "t" then Some (Py.chr 9, r')
               else if Ascii.eqb e "n" then Some (Py.chr 10, r')
               else if Ascii.eqb e "f" then Some (Py.chr 12, r')
               else if Ascii.eqb e "r" then Some (Py.chr 13, r')
               else if Ascii.eqb e "u"
                    then match r' with
                         | String _ (String _ (String h (String l rest))) =>
                             Some (Py.chr (16 * hex h + hex l), rest)
                         | _ => None
                         end
                    else None
           | EmptyString => None
           end
      else Some (c, r)
  end.

(** ** The command line front end *)

Module Cli.

(** The namespace [parser.parse_args()] returns. *)
Record namespace : Type := {
  input_file : string;
  output_file : string;
  sheet_name : option string;
  start_row : Z;
  end_row : option Z;
  key_column : string;
  default_column : string;
  default_lang : string;
  use_abbrev : bool
}.

(** What [main] writes on the error stream: nothing, the line [Error: ...],
    or [Unexpected error: ...] followed by the traceback. *)
Inductive report : Set := Silent | ErrorLine | UnexpectedTraceback.

(** The keyword arguments [main] passes on; [exclude_columns] is not among
    them. *)
Definition options_of (args : namespace) : options :=
  Build_options (sheet_name args) (start_row args) (end_row args)
    (key_column args) (default_column args) (default_lang args)
    None (use_abbrev args).

(** [main] from the parsed arguments on: the resulting file system, the
    report and the exit status. *)
Definition main (fs : gmap string file) (args : namespace)
  : gmap string file * report * Z :=
  match convert_to_i18n_json fs (input_file args) (output_file args) (options_of args) with
  | (fs', Ok _) => (fs', Silent, 0)
  | (fs', Raise e) =>
      match e with
      | FileNotFoundError | ValueError => (fs', ErrorLine, 1)
      | _ => (fs', UnexpectedTraceback, 1)
      end
  end.

End Cli.

(** ** Shared-string parts with rich text *)

Module RichText.

Definition t (text : string) : element := Element (main "t") [] (Some text) [].

(** One formatted run: [<r><t>text</t></r>]. *)
Definition r (text : string) : element := Element (main "r") [] None [t text].

(** A string item made of runs. *)
Definition si (runs : list string) : element := Element (main "si") [] None (r <$> runs).

Definition sst (items : list (list string)) : element :=
  Element (main "sst") [] None (si <$> items).

End RichText.

Fixpoint has_underscore (s : string) : bool :=
  match s with
  | EmptyString => false
  | String c r => Ascii.eqb c "_" || has_underscore r
  end.

(** * Properties *)

(** ** Column letters are bijective base-26 numerals *)

Lemma string_snoc_ind (P : string -> Prop) :
  P EmptyString ->
  (forall s c, P s -> P (s +:+ String c EmptyString)) ->
  forall s, P s.
Proof.
  intros H0 Hs s.
  rewrite <- (string_of_list_ascii_of_string s).
  induction (list_ascii_of_string s) as [|c l IH] using rev_ind; [exact H0|].
  replace (string_of_list_ascii (l ++ [c]))
    with (string_of_list_ascii l +:+ String c EmptyString).
  - apply Hs, IH.
  - clear. induction l as [|a l IH]; [reflexivity|].
    cbn. unfold String.app in *. cbn. now rewrite IH.
Qed.

Lemma append_cons (c : ascii) (s t : string) :
  String c s +:+ t = String c (s +:+ t).
Proof. reflexivity. Qed.

Lemma append_snoc (s : string) (c : ascii) (t : string) :
  (s +:+ String c EmptyString) +:+ t = s +:+ String c t.
Proof.
  induction s as [|a s IH]; [reflexivity|].
  rewrite !append_cons. now rewrite IH.
Qed.

Lemma append_empty_r (s : string) : s +:+ EmptyString = s.
Proof.
  induction s as [|a s IH]; [reflexivity|].
  rewrite append_cons. now rewrite IH.
Qed.

Lemma length_snoc (s : string) (c : ascii) :
  String.length (s +:+ String c EmptyString) = S (String.length s).
Proof.
  induction s as [|a s IH]; [reflexivity|].
  rewrite append_cons. cbn. now rewrite IH.
Qed.

(** What the code and the reference agree on, letter by letter. *)
Lemma letter_facts (c : ascii) :
  Py.between 65 90 c = true ->
  (letter_digit c =? Py.ord c - Py.ord "A" + 1)
  && (1 <=? letter_digit c) && (letter_digit c <=? 26)
  && Ascii.eqb (Py.upper_char c) c
  && Ascii.eqb (default "A"%char (String.get (Z.to_nat (letter_digit c - 1)) alphabet)) c
  = true.
Proof.
  destruct c as [[] [] [] [] [] [] [] []]; vm_compute;
    intros H; solve [reflexivity | discriminate H].
Qed.

Lemma letter_digit_code (c : ascii) :
  Py.between 65 90 c = true -> letter_digit c = Py.ord c - Py.ord "A" + 1.
Proof.
  intros H. apply letter_facts in H.
  rewrite !andb_true_iff in H. destruct H as [[[[H _] _] _] _].
  now apply Z.eqb_eq.
Qed.

Lemma letter_digit_range (c : ascii) :
  Py.between 65 90 c = true -> 1 <= letter_digit c <= 26.
Proof.
  intros H. apply letter_facts in H.
  rewrite !andb_true_iff in H. destruct H as [[[[_ H1] H2] _] _].
  apply Z.leb_le in H1, H2. lia.
Qed.

Lemma upper_char_capital (c : ascii) :
  Py.between 65 90 c = true -> Py.upper_char c = c.
Proof.
  intros H. apply letter_facts in H.
  rewrite !andb_true_iff in H. destruct H as [[_ H] _].
  now apply Ascii.eqb_eq.
Qed.

Lemma alphabet_letter (c : ascii) :
  Py.between 65 90 c = true ->
  default "A"%char (String.get (Z.to_nat (letter_digit c - 1)) alphabet) = c.
Proof.
  intros H. apply letter_facts in H.
  rewrite !andb_true_iff in H. destruct H as [_ H].
  now apply Ascii.eqb_eq.
Qed.

Lemma upper_column_letters (s : string) :
  column_letters s = true -> Py.upper s = s.
Proof.
  induction s as [|c s IH]; [reflexivity|]. cbn.
  intros [Hc Hs]%andb_true_iff.
  now rewrite upper_char_capital, IH.
Qed.

Lemma column_letters_snoc (s : string) (c : ascii) :
  column_letters (s +:+ String c EmptyString)
  = column_letters s && Py.between 65 90 c.
Proof.
  induction s as [|a s IH].
  - change (Py.between 65 90 c && true = true && Py.between 65 90 c).
    now destruct (Py.between 65 90 c).
  - rewrite append_cons. cbn [column_letters]. now rewrite IH, andb_assoc.
Qed.

Lemma bijective_value_nonneg (s : string) : 0 <= bijective_value s.
Proof.
  induction s as [|c s IH]; [cbn; lia|]. cbn.
  assert (0 <= letter_digit c).
  { unfold letter_digit. destruct (index _ _ _); lia. }
  assert (0 <= 26 ^ Z.of_nat (String.length s)) by (apply Z.pow_nonneg; lia).
  nia.
Qed.

Lemma bijective_value_snoc (s : string) (c : ascii) :
  bijective_value (s +:+ String c EmptyString)
  = 26 * bijective_value s + letter_digit c.
Proof.
  induction s as [|a s IH].
  - change (letter_digit c * 26 ^ 0 + 0 = 26 * 0 + letter_digit c). lia.
  - rewrite append_cons. cbn [bijective_value].
    rewrite IH, length_snoc, Nat2Z.inj_succ, Z.pow_succ_r by lia. lia.
Qed.

(** The loop of [get_column_index] is Horner's rule for the numeral. *)
Lemma column_loop_value (s : string) (index : Z) :
  column_letters s = true ->
  column_loop index s
  = index * 26 ^ Z.of_nat (String.length s) + bijective_value s.
Proof.
  revert index. induction s as [|c s IH]; intros index.
  - intros _. change (index = index * 26 ^ 0 + 0). lia.
  - cbn [column_letters column_loop bijective_value String.length].
    intros [Hc Hs]%andb_true_iff.
    rewrite IH, <- letter_digit_code, Nat2Z.inj_succ, Z.pow_succ_r by (assumption || lia).
    lia.
Qed.

(** With enough fuel the inverse mapping rebuilds the letters. *)
Lemma numeral_of_value (s : string) :
  column_letters s = true ->
  forall (fuel : nat) (acc : string),
    bijective_value s <= Z.of_nat fuel ->
    numeral_of fuel (bijective_value s) acc = s +:+ acc.
Proof.
  induction s as [|s c IH] using string_snoc_ind; intros Hs fuel acc Hfuel.
  - destruct fuel; reflexivity.
  - rewrite column_letters_snoc in Hs. apply andb_true_iff in Hs as [Hs Hc].
    rewrite bijective_value_snoc in *.
    pose proof (letter_digit_range c Hc) as Hd.
    pose proof (bijective_value_nonneg s) as Hv.
    destruct fuel as [|fuel]; [lia|].
    cbn [numeral_of].
    destruct (Z.leb_spec (26 * bijective_value s + letter_digit c) 0); [lia|].
    replace ((26 * bijective_value s + letter_digit c - 1) / 26)
      with (bijective_value s)
      by (apply Z.div_unique with (r := letter_digit c - 1); lia).
    replace ((26 * bijective_value s + letter_digit c - 1) mod 26)
      with (letter_digit c - 1)
      by (apply Z.mod_unique with (q := bijective_value s); lia).
    rewrite alphabet_letter by assumption.
    rewrite IH by (assumption || lia).
    now rewrite append_snoc.
Qed.

(** C1. For every non-empty string of column letters, [get_column_index]
    is the bijective base-26 value of the letters (A=1 ... Z=26, no zero
    digit) minus one, and the inverse numeral mapping applied to the result
    gives the letters back; "A" is 0, "Z" is 25, "AA" is 26 and "AB" is 27. *)
Theorem get_column_index_bijective (s : string) :
  s <> EmptyString ->
  column_letters s = true ->
  get_column_index s = bijective_value s - 1
  /\ letters_of_index (get_column_index s) = s
  /\ get_column_index "A" = 0 /\ get_column_index "Z" = 25
  /\ get_column_index "AA" = 26 /\ get_column_index "AB" = 27.
Proof.
  intros _ Hs.
  assert (Hidx : get_column_index s = bijective_value s - 1).
  { unfold get_column_index.
    rewrite upper_column_letters, column_loop_value by assumption. lia. }
  split; [exact Hidx|]. split.
  - unfold letters_of_index. rewrite Hidx.
    replace (bijective_value s - 1 + 1) with (bijective_value s) by lia.
    rewrite numeral_of_value.
    + apply append_empty_r.
    + assumption.
    + pose proof (bijective_value_nonneg s). lia.
  - repeat split; reflexivity.
Qed.

Lemma get_column_index_bijective_witness :
  get_column_index "BC" = bijective_value "BC" - 1
  /\ letters_of_index (get_column_index "BC") = "BC"
  /\ get_column_index "A" = 0 /\ get_column_index "Z" = 25
  /\ get_column_index "AA" = 26 /\ get_column_index "AB" = 27.
Proof.
  apply (get_column_index_bijective "BC"); [discriminate | reflexivity].
Defined.

(** ** Language tags *)

Lemma prefix_cons (a b : ascii) (p s : string) :
  String.prefix (String a p) (String b s)
  = if Ascii.eqb b a then String.prefix p s else false.
Proof.
  cbn. destruct (ascii_dec a b) as [->|Hne].
  - now rewrite Ascii.eqb_refl.
  - destruct (Ascii.eqb_spec b a); congruence.
Qed.

Lemma replace_underscore_cons (c : ascii) (r : string) :
  Py.replace_from "_" "-" 0 (String c r)
  = String (if Ascii.eqb c "_" then "-"%char else c) (Py.replace_from "_" "-" 0 r).
Proof.
  cbn [Py.replace_from]. rewrite prefix_cons.
  destruct (Ascii.eqb c "_"); [|reflexivity].
  now destruct r.
Qed.

Lemma replace_underscore_r_cons (c : ascii) (r : string) :
  Py.replace_from "_r" "-" 0 (String c r)
  = if Ascii.eqb c "_" && match r with
                          | String c2 _ => Ascii.eqb c2 "r"
                          | EmptyString => false
                          end
    then String "-" (Py.replace_from "_r" "-" 1 r)
    else String c (Py.replace_from "_r" "-" 0 r).
Proof.
  cbn [Py.replace_from]. rewrite prefix_cons.
  destruct (Ascii.eqb c "_"); [|reflexivity].
  destruct r as [|c2 r2]; [reflexivity|].
  rewrite prefix_cons. destruct (Ascii.eqb c2 "r"); [|reflexivity].
  now destruct r2.
Qed.

Lemma normalize_tag_cons2 (c a : ascii) (r : string) :
  normalize_tag (String c (String a r))
  = if Ascii.eqb c "_"
    then String "-" (if Ascii.eqb a "r" then normalize_tag r
                     else normalize_tag (String a r))
    else String c (normalize_tag (String a r)).
Proof. reflexivity. Qed.

(** The two successive [replace] calls are the one-pass normalisation. *)
Lemma abbreviate_normalize (header : string) :
  abbreviate header = normalize_tag header.
Proof.
  unfold abbreviate, Py.replace.
  enough (H : forall s,
             (Py.replace_from "_" "-" 0 (Py.replace_from "_r" "-" 0 s) = normalize_tag s)
             /\ forall c, Py.replace_from "_" "-" 0 (Py.replace_from "_r" "-" 0 (String c s))
                          = normalize_tag (String c s))
    by apply H.
  induction s as [|a r [IHr IHc]].
  - split; [reflexivity|]. intros c.
    rewrite replace_underscore_r_cons, andb_false_r, replace_underscore_cons.
    cbn [normalize_tag]. destruct (Ascii.eqb c "_"); reflexivity.
  - split; [apply IHc|]. intros c.
    rewrite replace_underscore_r_cons, normalize_tag_cons2.
    destruct (Ascii.eqb c "_") eqn:Hc; cbn [andb].
    + destruct (Ascii.eqb a "r") eqn:Ha.
      * rewrite replace_underscore_cons.
        change (Py.replace_from "_r" "-" 1 (String a r))
          with (Py.replace_from "_r" "-" 0 r).
        now rewrite IHr.
      * rewrite replace_underscore_cons, Hc, IHc. reflexivity.
    + rewrite replace_underscore_cons, Hc, IHc. reflexivity.
Qed.

(** ** Dictionaries *)

Section odict_facts.
Context {K V : Type} `{EqDecision K}.
Implicit Types (d : list (K * V)) (k : K) (v : V).

Lemma dict_get_set d k v k' :
  dict_get (dict_set d k v) k' = if decide (k' = k) then Some v else dict_get d k'.
Proof.
  induction d as [|[k0 v0] d IH]; cbn.
  - destruct (decide (k' = k)); reflexivity.
  - destruct (decide (k = k0)) as [->|Hk]; cbn.
    + destruct (decide (k' = k0)); reflexivity.
    + destruct (decide (k' = k0)) as [->|Hk'].
      * destruct (decide (k0 = k)); congruence.
      * exact IH.
Qed.

Lemma dict_get_set_eq d k v : dict_get (dict_set d k v) k = Some v.
Proof. rewrite dict_get_set. now destruct (decide (k = k)). Qed.

Lemma dict_get_set_ne d k v k' :
  k' <> k -> dict_get (dict_set d k v) k' = dict_get d k'.
Proof. intros Hne. rewrite dict_get_set. now destruct (decide (k' = k)). Qed.

Lemma dict_has_true d k : dict_has d k = true <-> is_Some (dict_get d k).
Proof. unfold dict_has. apply bool_decide_eq_true. Qed.

End odict_facts.

(** ** Which columns are language columns *)

(** The language columns, looked up by index: exactly the headers that pass
    [is_language_header], each with its tag. *)
Lemma language_fold_lookup (o : options) (l : list string) :
  forall (i : Z) (acc : list (Z * string)) (idx : Z),
    dict_get (foldl (language_step (meta_columns o) (use_abbrev o)) acc
                    (enumerate_from i l)) idx
    = match (if decide (i <= idx) then l !! Z.to_nat (idx - i) else None) with
      | Some header =>
          if is_language_header (meta_columns o) header
          then Some (tag_of_header o header)
          else dict_get acc idx
      | None => dict_get acc idx
      end.
Proof.
  induction l as [|h l IH]; intros i acc idx.
  - cbn. now destruct (decide (i <= idx)).
  - cbn [enumerate_from foldl]. rewrite IH.
    destruct (decide (Z.succ i <= idx)) as [Hlt|Hge].
    + destruct (decide (i <= idx)); [|lia].
      replace (Z.to_nat (idx - i)) with (S (Z.to_nat (idx - Z.succ i))) by lia.
      cbn [lookup list_lookup].
      assert (Hacc : dict_get (language_step (meta_columns o) (use_abbrev o) acc (i, h)) idx
                     = dict_get acc idx).
      { unfold language_step. destruct (is_language_header _ h); [|reflexivity].
        apply dict_get_set_ne. lia. }
      now rewrite Hacc.
    + destruct (decide (i <= idx)) as [Hle|Hgt].
      * assert (idx = i) as -> by lia.
        rewrite Z.sub_diag. change ((h :: l) !! Z.to_nat 0) with (Some h).
        unfold language_step, tag_of_header.
        destruct (is_language_header _ h); [|reflexivity].
        apply dict_get_set_eq.
      * unfold language_step. destruct (is_language_header _ h); [|reflexivity].
        apply dict_get_set_ne. lia.
Qed.

Lemma language_columns_lookup (o : options) (headers : list string) (idx : Z) :
  dict_get (identify_language_columns o headers) idx
  = match (if decide (0 <= idx) then headers !! Z.to_nat idx else None) with
    | Some header =>
        if is_language_header (meta_columns o) header
        then Some (tag_of_header o header)
        else None
    | None => None
    end.
Proof.
  unfold identify_language_columns. rewrite language_fold_lookup.
  rewrite Z.sub_0_r.
  destruct (decide (0 <= idx)); [|reflexivity].
  destruct (headers !! Z.to_nat idx); [|reflexivity].
  now destruct (is_language_header _ _).
Qed.

(** C6. The tag of a language column is its header with every [_r] and every
    remaining [_] turned into [-] when abbreviation is on, and the header
    itself when it is off: [zh_rCN] gives [zh-CN], respectively [zh_rCN]. *)
Theorem language_tag_normalization :
  (forall (o : options) (headers : list string) (idx : Z) (tag : string),
      dict_get (identify_language_columns o headers) idx = Some tag <->
      exists header,
        0 <= idx /\ headers !! Z.to_nat idx = Some header
        /\ is_language_header (meta_columns o) header = true
        /\ tag = if use_abbrev o then normalize_tag header else header)
  /\ (forall header, abbreviate header = normalize_tag header)
  /\ identify_language_columns default_options ["key"; "default"; "zh_rCN"]
     = [(2, "zh-CN")]
  /\ identify_language_columns
       {| sheet_name := None; start_row := 2; end_row := None;
          key_column := "key"; default_column := "default"; default_lang := "en";
          exclude_columns := None; use_abbrev := false |}
       ["key"; "default"; "zh_rCN"]
     = [(2, "zh_rCN")].
Proof.
  split; [|split; [exact abbreviate_normalize | split; reflexivity]].
  intros o headers idx tag.
  rewrite language_columns_lookup. unfold tag_of_header.
  split.
  - destruct (decide (0 <= idx)); [|discriminate].
    destruct (headers !! Z.to_nat idx) as [header|]; [|discriminate].
    destruct (is_language_header _ header) eqn:Hlang; [|discriminate].
    intros [= <-]. exists header. rewrite <- abbreviate_normalize.
    repeat split; assumption.
  - intros (header & Hidx & Hheader & Hlang & ->).
    destruct (decide (0 <= idx)); [|lia].
    now rewrite <- abbreviate_normalize, Hheader, Hlang.
Qed.

Lemma dict_get_None {V : Type} (d : list (Z * V)) (k : Z) :
  dict_get d k = None -> forall v, (k, v) ∉ d.
Proof.
  induction d as [|[k0 v0] d IH]; cbn; intros Hget v Hin.
  - inversion Hin.
  - destruct (decide (k = k0)); [discriminate|].
    apply elem_of_cons in Hin as [[=]|Hin]; [congruence|].
    exact (IH Hget v Hin).
Qed.

(** The language pass reads the row through the language columns only. *)
Lemma add_languages_agree (lc : list (Z * string)) (cells cells' : gmap Z string)
    (text_id : string) :
  (forall col_idx lang, (col_idx, lang) ∈ lc ->
                        cell_text cells col_idx = cell_text cells' col_idx) ->
  forall result,
    add_languages lc cells text_id result = add_languages lc cells' text_id result.
Proof.
  unfold add_languages.
  induction lc as [|[col_idx lang] lc IH]; intros Hagree result; [reflexivity|].
  cbn [foldl].
  rewrite (Hagree col_idx lang) by apply list_elem_of_here.
  apply IH. intros c l Hin. apply (Hagree c l). now apply list_elem_of_further.
Qed.

(** C10. A header that starts with [col_], whether written in the header row
    or generated for a column without header text, is not a language column,
    and what its cells hold has no effect on what a row adds to the result. *)
Theorem col_prefix_never_language (o : options) (headers : list string)
    (idx : Z) (header : string) :
  0 <= idx ->
  headers !! Z.to_nat idx = Some header ->
  Py.startswith header "col_" = true ->
  dict_get (identify_language_columns o headers) idx = None
  /\ (forall (y : layout) (cells cells' : gmap Z string) (result : result_map),
        language_columns y = identify_language_columns o headers ->
        key_idx y <> Some idx ->
        default_idx y <> idx ->
        (forall j, j <> idx -> cells !! j = cells' !! j) ->
        extract_cells o y cells result = extract_cells o y cells' result)
  /\ (forall i, Py.startswith ("col_" +:+ Py.str i) "col_" = true).
Proof.
  intros Hidx Hheader Hprefix.
  assert (Hnone : dict_get (identify_language_columns o headers) idx = None).
  { rewrite language_columns_lookup, Hheader.
    destruct (decide (0 <= idx)); [|reflexivity].
    unfold is_language_header. rewrite Hprefix.
    now rewrite andb_false_r. }
  split; [exact Hnone|]. split.
  2:{ intros i. change (String.prefix EmptyString (Py.str i) = true).
      now destruct (Py.str i). }
  intros y cells cells' result Hlc Hkey Hdefault Hagree.
  assert (Hcell : forall j, j <> idx -> cell_text cells j = cell_text cells' j).
  { intros j Hj. unfold cell_text. now rewrite (Hagree j Hj). }
  unfold extract_cells.
  replace (key_value_of (key_idx y) cells') with (key_value_of (key_idx y) cells).
  2:{ unfold key_value_of. destruct (key_idx y) as [k|]; [|reflexivity].
      apply Hcell. congruence. }
  rewrite <- (Hcell (default_idx y)) by assumption.
  destruct (cell_text cells (default_idx y)); [reflexivity|].
  apply add_languages_agree.
  intros col_idx lang Hin. apply Hcell. intros ->.
  rewrite Hlc in Hin. exact (dict_get_None _ _ Hnone lang Hin).
Qed.

Lemma col_prefix_never_language_witness :
  dict_get (identify_language_columns default_options ["key"; "default"; "col_x"; "fr"]) 2
  = None
  /\ (forall (y : layout) (cells cells' : gmap Z string) (result : result_map),
        language_columns y
        = identify_language_columns default_options ["key"; "default"; "col_x"; "fr"] ->
        key_idx y <> Some 2 ->
        default_idx y <> 2 ->
        (forall j, j <> 2 -> cells !! j = cells' !! j) ->
        extract_cells default_options y cells result
        = extract_cells default_options y cells' result)
  /\ (forall i, Py.startswith ("col_" +:+ Py.str i) "col_" = true).
Proof.
  apply (col_prefix_never_language default_options
           ["key"; "default"; "col_x"; "fr"] 2 "col_x");
    [lia | reflexivity | reflexivity].
Defined.

(** ** The result mapping *)

Lemma add_text_get (result : result_map) (lang key value lang' : string) :
  dict_get (add_text result lang key value) lang'
  = if decide (lang' = lang)
    then Some (dict_set (default [] (dict_get result lang)) key value)
    else dict_get result lang'.
Proof.
  unfold add_text. rewrite dict_get_set.
  destruct (decide (lang' = lang)) as [->|Hne].
  - f_equal. f_equal.
    destruct (dict_has result lang) eqn:Hhas; [reflexivity|].
    rewrite dict_get_set_eq.
    destruct (dict_get result lang) eqn:Hget; [|reflexivity].
    assert (dict_has result lang = true) by (apply dict_has_true; rewrite Hget; eauto).
    congruence.
  - destruct (dict_has result lang); [reflexivity|].
    now apply dict_get_set_ne.
Qed.

Lemma text_at_add_text (result : result_map) (lang key value lang' key' : string) :
  text_at (add_text result lang key value) lang' key'
  = if decide (lang' = lang /\ key' = key) then Some value
    else text_at result lang' key'.
Proof.
  unfold text_at. rewrite add_text_get.
  destruct (decide (lang' = lang)) as [->|Hne].
  - cbn. rewrite dict_get_set.
    destruct (decide (key' = key)) as [->|Hk].
    + now rewrite decide_True.
    + rewrite decide_False by tauto.
      now destruct (dict_get result lang).
  - now rewrite decide_False by tauto.
Qed.

Lemma bind_Ok {A B : Type} (m : res A) (f : A -> res B) (b : B) :
  m ≫= f = Ok b -> exists a, m = Ok a /\ f a = Ok b.
Proof. destruct m as [a|e]; cbn; [eauto|discriminate]. Qed.

(** Whatever holds of the empty mapping and is kept by the body of the
    loop holds of the extracted result. *)
Lemma extract_rows_invariant (o : options) (P : result_map -> Prop) :
  (forall y cells result, P result -> P (extract_cells o y cells result)) ->
  forall y shared_strings rows result result',
    P result ->
    extract_rows o y shared_strings result rows = Ok result' ->
    P result'.
Proof.
  intros Hstep y shared_strings rows.
  induction rows as [|row_elem rows IH]; intros result result' HP Hrun.
  - cbn in Hrun. congruence.
  - cbn [extract_rows] in Hrun.
    apply bind_Ok in Hrun as (result1 & Hrow & Hrest).
    apply (IH result1 result'); [|exact Hrest].
    unfold extract_row in Hrow.
    apply bind_Ok in Hrow as (row_num & _ & Hrow).
    destruct (in_range o y row_num).
    + apply bind_Ok in Hrow as (cells & _ & [= <-]). now apply Hstep.
    + now injection Hrow as <-.
Qed.

Lemma extract_invariant (o : options) (P : result_map -> Prop) :
  P [] ->
  (forall y cells result, P result -> P (extract_cells o y cells result)) ->
  forall zip_ref result, extract zip_ref o = Ok result -> P result.
Proof.
  intros Hnil Hstep zip_ref result Hrun. unfold extract in Hrun.
  apply bind_Ok in Hrun as (shared_strings & _ & Hrun).
  apply bind_Ok in Hrun as ([sheet_path name] & _ & Hrun).
  apply bind_Ok in Hrun as (sheet_root & _ & Hrun).
  apply bind_Ok in Hrun as (y & _ & Hrun).
  exact (extract_rows_invariant o P Hstep _ _ _ _ _ Hnil Hrun).
Qed.

(** *** Keys of the other languages are keys of the default language *)

Lemma add_languages_covered (dl text_id : string) (cells : gmap Z string)
    (lc : list (Z * string)) :
  forall result,
    (forall lang key, lang <> dl -> is_Some (text_at result lang key) ->
                      is_Some (text_at result dl key)) ->
    is_Some (text_at result dl text_id) ->
    (forall lang key, lang <> dl ->
                      is_Some (text_at (add_languages lc cells text_id result) lang key) ->
                      is_Some (text_at (add_languages lc cells text_id result) dl key))
    /\ is_Some (text_at (add_languages lc cells text_id result) dl text_id).
Proof.
  unfold add_languages.
  induction lc as [|[col_idx lang_code] lc IH]; intros result Hcov Hid; [now split|].
  cbn [foldl].
  destruct (cell_text cells col_idx) as [|ch rest] eqn:Hcell; [now apply IH|].
  apply IH.
  - intros lang key Hlang. rewrite !text_at_add_text.
    destruct (decide (lang = lang_code /\ key = text_id)) as [[-> ->]|Hne].
    + intros _. destruct (decide (dl = lang_code /\ text_id = text_id)); [eauto|exact Hid].
    + intros Hsome. destruct (decide (dl = lang_code /\ key = text_id)); [eauto|].
      now apply (Hcov lang).
  - rewrite text_at_add_text.
    destruct (decide (dl = lang_code /\ text_id = text_id)); [eauto|exact Hid].
Qed.

Lemma extract_cells_covered (o : options) (y : layout) (cells : gmap Z string)
    (result : result_map) :
  (forall lang key, lang <> default_lang o -> is_Some (text_at result lang key) ->
                    is_Some (text_at result (default_lang o) key)) ->
  forall lang key, lang <> default_lang o ->
                   is_Some (text_at (extract_cells o y cells result) lang key) ->
                   is_Some (text_at (extract_cells o y cells result) (default_lang o) key).
Proof.
  intros Hcov. unfold extract_cells.
  destruct (cell_text cells (default_idx y)) as [|ch rest] eqn:Hdefault; [exact Hcov|].
  apply add_languages_covered.
  - intros lang key Hlang. rewrite !text_at_add_text.
    rewrite (decide_False (P := lang = default_lang o /\ _)) by tauto.
    intros Hsome. destruct (decide (_ /\ _)); [eauto|]. now apply (Hcov lang).
  - rewrite text_at_add_text. rewrite decide_True by tauto. eauto.
Qed.

Lemma text_at_Some (result : result_map) (lang key : string) :
  is_Some (text_at result lang key) <->
  exists texts, dict_get result lang = Some texts /\ is_Some (dict_get texts key).
Proof.
  unfold text_at. destruct (dict_get result lang) as [texts|]; cbn.
  - split; [eauto|]. now intros (? & [= <-] & ?).
  - split; [intros [? [=]]|]. now intros (? & [=] & _).
Qed.

(** C3. In the mapping a conversion produces, every key found under a
    language other than the default one is also a key of the default
    language. *)
Theorem default_language_has_every_key (zip_ref : gmap string member)
    (o : options) (result : result_map) :
  extract zip_ref o = Ok result ->
  forall lang texts key,
    lang <> default_lang o ->
    dict_get result lang = Some texts ->
    is_Some (dict_get texts key) ->
    exists default_texts,
      dict_get result (default_lang o) = Some default_texts
      /\ is_Some (dict_get default_texts key).
Proof.
  intros Hrun lang texts key Hlang Htexts Hkey.
  apply text_at_Some.
  revert lang key Hlang texts Htexts Hkey.
  enough (H : forall lang key, lang <> default_lang o ->
                               is_Some (text_at result lang key) ->
                               is_Some (text_at result (default_lang o) key)).
  { intros lang key Hlang texts Htexts Hkey. apply (H lang key Hlang).
    apply text_at_Some. eauto. }
  revert zip_ref result Hrun.
  apply (extract_invariant o
           (fun result => forall lang key, lang <> default_lang o ->
                            is_Some (text_at result lang key) ->
                            is_Some (text_at result (default_lang o) key))).
  - intros lang key _ [? [=]].
  - intros y cells result. apply extract_cells_covered.
Qed.

Lemma default_language_has_every_key_witness :
  exists default_texts,
    dict_get [("en", [("greeting", "Hello"); ("Hello", "Hello")]);
              ("zh-CN", [("greeting", "s2")]);
              ("fr", [("greeting", "Bonjour")])] "en" = Some default_texts
    /\ is_Some (dict_get default_texts "greeting").
Proof.
  apply (default_language_has_every_key Sample.translations default_options
           [("en", [("greeting", "Hello"); ("Hello", "Hello")]);
            ("zh-CN", [("greeting", "s2")]);
            ("fr", [("greeting", "Bonjour")])]
           eq_refl "zh-CN" [("greeting", "s2")] "greeting").
  - discriminate.
  - reflexivity.
  - eexists. reflexivity.
Defined.

(** *** Trimming *)

Lemma append_assoc (s t u : string) : (s +:+ t) +:+ u = s +:+ (t +:+ u).
Proof.
  induction s as [|c s IH]; [reflexivity|].
  rewrite !append_cons. now rewrite IH.
Qed.

Lemma string_length_ind (P : string -> Prop) :
  (forall s, (forall t, (String.length t < String.length s)%nat -> P t) -> P s) ->
  forall s, P s.
Proof.
  intros Hstep s. apply Hstep.
  induction s as [|c s IH]; intros t Ht; cbn in Ht; [lia|].
  apply Hstep. intros u Hu. apply IH. lia.
Qed.

Lemma lstrip_unfold (s : string) :
  Py.lstrip s = match Py.after_space s with
                | Some r => Py.lstrip r
                | None => s
                end.
Proof.
  destruct s as [|c s]; [reflexivity|]. cbn [Py.lstrip Py.after_space].
  destruct (Py.isspace c); [reflexivity|].
  destruct s as [|d s]; [reflexivity|]. cbv beta iota.
  destruct (Py.isspace2 c d); [reflexivity|].
  destruct s as [|e s]; [reflexivity|]. cbv beta iota.
  destruct (Py.isspace3 c d e); reflexivity.
Qed.

Lemma whitespace_only_unfold (s : string) :
  Py.whitespace_only s
  = match s with
    | EmptyString => true
    | String _ _ =>
        match Py.after_space s with
        | Some r => Py.whitespace_only r
        | None => false
        end
    end.
Proof.
  destruct s as [|c s]; [reflexivity|]. cbn [Py.whitespace_only Py.after_space].
  destruct (Py.isspace c); [reflexivity|].
  destruct s as [|d s]; [reflexivity|]. cbv beta iota.
  destruct (Py.isspace2 c d); [reflexivity|].
  destruct s as [|e s]; [reflexivity|]. cbv beta iota.
  destruct (Py.isspace3 c d e); reflexivity.
Qed.

(** A leading white space character is a non-empty run of white space. *)
Lemma after_space_Some (s r : string) :
  Py.after_space s = Some r ->
  exists w, s = w +:+ r /\ w <> EmptyString /\ Py.whitespace_only w = true.
Proof.
  destruct s as [|c s]; cbn [Py.after_space]; [discriminate|].
  destruct (Py.isspace c) eqn:H1.
  { intros [= <-]. exists (String c EmptyString).
    split; [reflexivity|]. split; [discriminate|]. cbn. now rewrite H1. }
  destruct s as [|d s]; [discriminate|].
  destruct (Py.isspace2 c d) eqn:H2.
  { intros [= <-]. exists (String c (String d EmptyString)).
    split; [reflexivity|]. split; [discriminate|]. cbn. now rewrite H1, H2. }
  destruct s as [|e s]; [discriminate|].
  destruct (Py.isspace3 c d e) eqn:H3; [|discriminate].
  intros [= <-]. exists (String c (String d (String e EmptyString))).
  split; [reflexivity|]. split; [discriminate|]. cbn. now rewrite H1, H2, H3.
Qed.

Lemma length_append (s t : string) :
  String.length (s +:+ t) = (String.length s + String.length t)%nat.
Proof.
  induction s as [|c s IH]; [reflexivity|].
  rewrite append_cons. cbn. now rewrite IH.
Qed.

Lemma after_space_shorter (s r : string) :
  Py.after_space s = Some r -> (String.length r < String.length s)%nat.
Proof.
  intros (w & -> & Hw & _)%after_space_Some. rewrite length_append.
  destruct w; [contradiction|cbn; lia].
Qed.

Lemma after_space_app (p q r : string) :
  Py.after_space p = Some r -> Py.after_space (p +:+ q) = Some (r +:+ q).
Proof.
  destruct p as [|c p]; cbn [Py.after_space]; [discriminate|].
  rewrite append_cons. cbn [Py.after_space].
  destruct (Py.isspace c); [now intros [= <-]|].
  destruct p as [|d p]; [discriminate|]. rewrite append_cons.
  destruct (Py.isspace2 c d); [now intros [= <-]|].
  destruct p as [|e p]; [discriminate|]. rewrite append_cons.
  destruct (Py.isspace3 c d e); [now intros [= <-]|discriminate].
Qed.

Lemma whitespace_only_app (p q : string) :
  Py.whitespace_only p = true -> Py.whitespace_only q = true ->
  Py.whitespace_only (p +:+ q) = true.
Proof.
  revert q. induction p as [p IH] using string_length_ind. intros q Hp Hq.
  destruct p as [|c p]; [exact Hq|].
  rewrite whitespace_only_unfold in Hp.
  destruct (Py.after_space (String c p)) as [r|] eqn:Hr; [|discriminate].
  rewrite append_cons, whitespace_only_unfold, <- append_cons.
  rewrite (after_space_app _ q _ Hr).
  apply IH; [now apply after_space_shorter|assumption..].
Qed.

Lemma lstrip_head (s : string) : Py.after_space (Py.lstrip s) = None.
Proof.
  induction s as [s IH] using string_length_ind.
  rewrite lstrip_unfold.
  destruct (Py.after_space s) as [r|] eqn:Hr; [|exact Hr].
  apply IH. now apply after_space_shorter.
Qed.

Lemma lstrip_fixed (s : string) : Py.after_space s = None -> Py.lstrip s = s.
Proof. intros H. now rewrite lstrip_unfold, H. Qed.

Lemma lstrip_split (s : string) :
  exists l, s = l +:+ Py.lstrip s /\ Py.whitespace_only l = true.
Proof.
  induction s as [s IH] using string_length_ind.
  rewrite lstrip_unfold.
  destruct (Py.after_space s) as [r|] eqn:Hr.
  - destruct (after_space_Some s r Hr) as (w & -> & _ & Hw).
    destruct (IH r (after_space_shorter _ _ Hr)) as (l & Hl & Hwl).
    exists (w +:+ l). split.
    + now rewrite append_assoc, <- Hl.
    + now apply whitespace_only_app.
  - now exists EmptyString.
Qed.

Lemma rstrip_split (s : string) :
  exists r, s = Py.rstrip s +:+ r /\ Py.whitespace_only r = true.
Proof.
  induction s as [|c s (r & Hr & Hw)]; [now exists EmptyString|].
  cbn [Py.rstrip]. destruct (Py.whitespace_only (String c s)) eqn:Hall.
  - now exists (String c s).
  - exists r. split; [|exact Hw]. rewrite append_cons. now rewrite <- Hr.
Qed.

Lemma rstrip_whitespace_only (s : string) :
  Py.whitespace_only s = true -> Py.rstrip s = EmptyString.
Proof. destruct s as [|c s]; [reflexivity|]. cbn [Py.rstrip]. now intros ->. Qed.

Lemma lstrip_whitespace_only (s : string) :
  Py.whitespace_only s = true -> Py.lstrip s = EmptyString.
Proof.
  induction s as [s IH] using string_length_ind. intros Hs.
  destruct s as [|c s]; [reflexivity|].
  rewrite lstrip_unfold. rewrite whitespace_only_unfold in Hs.
  destruct (Py.after_space (String c s)) as [r|] eqn:Hr; [|discriminate].
  apply IH; [now apply after_space_shorter|exact Hs].
Qed.

Lemma strip_whitespace_only (s : string) :
  Py.whitespace_only s = true -> Py.strip s = EmptyString.
Proof. intros Hs. unfold Py.strip. now rewrite lstrip_whitespace_only. Qed.

Lemma strip_empty (s : string) :
  Py.strip s = EmptyString -> Py.whitespace_only s = true.
Proof.
  unfold Py.strip. intros Hs.
  destruct (lstrip_split s) as (l & Hl & Hwl).
  destruct (rstrip_split (Py.lstrip s)) as (r & Hr & Hwr).
  rewrite Hs in Hr. rewrite Hl, Hr. now apply whitespace_only_app.
Qed.

(** Trimming leaves no white space run at the end... *)
Lemma rstrip_cuts_run (p w : string) :
  Py.whitespace_only w = true ->
  (String.length (Py.rstrip (p +:+ w)) <= String.length p)%nat.
Proof.
  intros Hw. induction p as [|c p IH].
  - change (EmptyString +:+ w) with w. now rewrite rstrip_whitespace_only.
  - rewrite append_cons. cbn [Py.rstrip].
    destruct (Py.whitespace_only (String c (p +:+ w))); cbn [String.length]; lia.
Qed.

Lemma rstrip_idempotent (s : string) : Py.rstrip (Py.rstrip s) = Py.rstrip s.
Proof.
  induction s as [|c s IH]; [reflexivity|]. cbn [Py.rstrip].
  destruct (Py.whitespace_only (String c s)) eqn:Hall; [reflexivity|].
  cbn [Py.rstrip]. rewrite IH.
  destruct (Py.whitespace_only (String c (Py.rstrip s))) eqn:Hcut; [|reflexivity].
  destruct (rstrip_split s) as (r & Hr & Hw).
  rewrite Hr, <- append_cons in Hall.
  now rewrite whitespace_only_app in Hall.
Qed.

(** ... nor at the beginning. *)
Lemma after_space_rstrip (s : string) :
  Py.after_space s = None -> Py.after_space (Py.rstrip s) = None.
Proof.
  intros Hs. destruct (Py.after_space (Py.rstrip s)) as [r|] eqn:Hr; [|reflexivity].
  destruct (rstrip_split s) as (q & Hq & _).
  apply (after_space_app _ q) in Hr. rewrite <- Hq in Hr. congruence.
Qed.

Lemma strip_idempotent (s : string) : Py.strip (Py.strip s) = Py.strip s.
Proof.
  unfold Py.strip.
  rewrite (lstrip_fixed (Py.rstrip (Py.lstrip s)))
    by apply after_space_rstrip, lstrip_head.
  apply rstrip_idempotent.
Qed.

Lemma strip_no_space_at_ends (s : string) : no_space_at_ends (Py.strip s).
Proof.
  split.
  - intros w rest Heq Hw. destruct w as [|c w]; [reflexivity|exfalso].
    rewrite whitespace_only_unfold in Hw.
    destruct (Py.after_space (String c w)) as [r|] eqn:Hr; [|discriminate].
    apply (after_space_app _ rest) in Hr. rewrite <- Heq in Hr.
    unfold Py.strip in Hr.
    now rewrite after_space_rstrip in Hr by apply lstrip_head.
  - intros rest w Heq Hw.
    pose proof (rstrip_cuts_run rest w Hw) as Hlen.
    rewrite <- Heq in Hlen. unfold Py.strip in Hlen, Heq.
    rewrite rstrip_idempotent, Heq, length_append in Hlen.
    destruct w; [reflexivity|cbn in Hlen; lia].
Qed.

(** [strip] computes the trimmed text. *)
Lemma strip_is_trim (s : string) : is_trim_of s (Py.strip s).
Proof.
  split; [|apply strip_no_space_at_ends].
  destruct (lstrip_split s) as (l & Hl & Hwl).
  destruct (rstrip_split (Py.lstrip s)) as (r & Hr & Hwr).
  exists l, r. unfold Py.strip. now rewrite <- Hr, <- Hl.
Qed.

Lemma cell_text_empty (cells : gmap Z string) (i : Z) :
  cell_text cells i = EmptyString <->
  cells !! i = None
  \/ exists s, cells !! i = Some s /\ Py.whitespace_only s = true.
Proof.
  unfold cell_text. destruct (cells !! i) as [s|]; cbn.
  - split.
    + intros Hs%strip_empty. right. now exists s.
    + intros [[=]|(s' & [= <-] & Hs)]. now apply strip_whitespace_only.
  - split; [now left|reflexivity].
Qed.

(** *** No empty text is stored *)

Lemma add_languages_nonempty (text_id : string) (cells : gmap Z string)
    (lc : list (Z * string)) :
  forall result,
    (forall lang key, text_at result lang key <> Some EmptyString) ->
    forall lang key,
      text_at (add_languages lc cells text_id result) lang key <> Some EmptyString.
Proof.
  unfold add_languages.
  induction lc as [|[col_idx lang_code] lc IH]; intros result Hne; [exact Hne|].
  cbn [foldl].
  destruct (cell_text cells col_idx) as [|ch rest] eqn:Hcell; [now apply IH|].
  apply IH. intros lang key. rewrite text_at_add_text.
  destruct (decide (_ /\ _)); [discriminate|apply Hne].
Qed.

Lemma extract_cells_nonempty (o : options) (y : layout) (cells : gmap Z string)
    (result : result_map) :
  (forall lang key, text_at result lang key <> Some EmptyString) ->
  forall lang key, text_at (extract_cells o y cells result) lang key <> Some EmptyString.
Proof.
  intros Hne. unfold extract_cells.
  destruct (cell_text cells (default_idx y)) as [|ch rest] eqn:Hdefault; [exact Hne|].
  apply add_languages_nonempty. intros lang key. rewrite text_at_add_text.
  destruct (decide (_ /\ _)); [discriminate|apply Hne].
Qed.

(** C7. The empty string is never a value of the result mapping.  A row
    whose trimmed default text is empty adds nothing, and a language column
    whose trimmed cell is empty adds nothing for that row; the trimmed text
    of a cell is empty exactly when the cell is absent or holds nothing but
    white space (any of the characters [str.strip] removes, such as U+3000
    and U+00A0). *)
Theorem empty_text_never_stored (zip_ref : gmap string member) (o : options)
    (result : result_map) :
  extract zip_ref o = Ok result ->
  (forall lang texts key value,
      dict_get result lang = Some texts -> dict_get texts key = Some value ->
      value <> EmptyString)
  /\ (forall y cells r,
        cells !! default_idx y = None
        \/ (exists s, cells !! default_idx y = Some s /\ Py.whitespace_only s = true) ->
        extract_cells o y cells r = r)
  /\ (forall lc1 lc2 col_idx lang cells text_id r,
        cells !! col_idx = None
        \/ (exists s, cells !! col_idx = Some s /\ Py.whitespace_only s = true) ->
        add_languages (lc1 ++ (col_idx, lang) :: lc2) cells text_id r
        = add_languages (lc1 ++ lc2) cells text_id r)
  /\ (forall cells i,
        cell_text cells i = EmptyString <->
        cells !! i = None
        \/ exists s, cells !! i = Some s /\ Py.whitespace_only s = true)
  /\ Py.whitespace_only (ideographic_space +:+ " " +:+ no_break_space) = true.
Proof.
  intros Hrun. split; [|split; [|split; [|split]]].
  - intros lang texts key value Htexts Hvalue ->.
    apply (extract_invariant o
             (fun result => forall lang key, text_at result lang key <> Some EmptyString))
      with (zip_ref := zip_ref) (result := result) (lang := lang) (key := key).
    + intros l k. unfold text_at. cbn. discriminate.
    + intros y cells r. apply extract_cells_nonempty.
    + exact Hrun.
    + unfold text_at. now rewrite Htexts.
  - intros y cells r Hdefault%cell_text_empty. unfold extract_cells. now rewrite Hdefault.
  - intros lc1 lc2 col_idx lang cells text_id r Hcell%cell_text_empty.
    unfold add_languages. rewrite !foldl_app. cbn [foldl]. now rewrite Hcell.
  - apply cell_text_empty.
  - reflexivity.
Qed.

Lemma empty_text_never_stored_witness :
  (forall lang texts key value,
      dict_get [("en", [("greeting", "Hello"); ("Hello", "Hello")]);
                ("zh-CN", [("greeting", "s2")]);
                ("fr", [("greeting", "Bonjour")])] lang = Some texts ->
      dict_get texts key = Some value ->
      value <> EmptyString)
  /\ (forall y cells r,
        cells !! default_idx y = None
        \/ (exists s, cells !! default_idx y = Some s /\ Py.whitespace_only s = true) ->
        extract_cells default_options y cells r = r)
  /\ (forall lc1 lc2 col_idx lang cells text_id r,
        cells !! col_idx = None
        \/ (exists s, cells !! col_idx = Some s /\ Py.whitespace_only s = true) ->
        add_languages (lc1 ++ (col_idx, lang) :: lc2) cells text_id r
        = add_languages (lc1 ++ lc2) cells text_id r)
  /\ (forall cells i,
        cell_text cells i = EmptyString <->
        cells !! i = None
        \/ exists s, cells !! i = Some s /\ Py.whitespace_only s = true)
  /\ Py.whitespace_only (ideographic_space +:+ " " +:+ no_break_space) = true.
Proof.
  exact (empty_text_never_stored Sample.translations default_options _ eq_refl).
Defined.

(** *** The effective key *)

Lemma add_languages_keeps (text_id : string) (cells : gmap Z string)
    (lc : list (Z * string)) (lang key : string) :
  forall result,
    is_Some (text_at result lang key) ->
    is_Some (text_at (add_languages lc cells text_id result) lang key).
Proof.
  unfold add_languages.
  induction lc as [|[col_idx lang_code] lc IH]; intros result Hsome; [exact Hsome|].
  cbn [foldl].
  destruct (cell_text cells col_idx) as [|ch rest] eqn:Hcell; [now apply IH|].
  apply IH. rewrite text_at_add_text.
  destruct (decide (_ /\ _)); [eauto|exact Hsome].
Qed.

(** C8 read to the letter: that the key is the trimmed key-column value
    whenever the headers have a key column.  It fails on a row whose key
    cell is blank: the key is then the default text. *)
Lemma key_column_alone_does_not_decide :
  ~ (forall (y : layout) (cells : gmap Z string) (k : Z),
        key_idx y = Some k ->
        cell_text cells (default_idx y) <> EmptyString ->
        text_id_of (key_value_of (key_idx y) cells) (cell_text cells (default_idx y))
        = cell_text cells k).
Proof.
  intros H.
  specialize (H {| max_col := 3; language_columns := [(2, "zh-CN"); (3, "fr")];
                   key_idx := Some 0; default_idx := 1; actual_end_row := 2 |}
                {[ 0 := " "; 1 := "Hello" ]} 0 eq_refl).
  vm_compute in H. discriminate H. discriminate.
Qed.

(** C8, amended. The effective key of an extracted row is the trimmed value
    of the key column when the headers have a key column and that value is
    not empty, and the trimmed default text otherwise; the default-language
    entry is stored under it, so a row with an empty key cell and the
    default text "Hello" yields "Hello": "Hello" under the default language.
    Trimmed is meant as [is_trim_of]: the cell text without the white space
    around it. *)
Theorem self_keying_fallback (o : options) (y : layout) (cells : gmap Z string)
    (result : result_map) :
  let raw i := default EmptyString (cells !! i) in
  Py.whitespace_only (raw (default_idx y)) = false ->
  (exists default_value key_value,
      is_trim_of (raw (default_idx y)) default_value
      /\ default_value <> EmptyString
      /\ match key_idx y with
         | Some k => is_trim_of (raw k) key_value
         | None => key_value = EmptyString
         end
      /\ let text_id :=
           if decide (key_value = EmptyString) then default_value else key_value in
         extract_cells o y cells result
         = add_languages (language_columns y) cells text_id
             (add_text result (default_lang o) text_id default_value)
         /\ text_at (add_text result (default_lang o) text_id default_value)
              (default_lang o) text_id = Some default_value
         /\ is_Some (text_at (extract_cells o y cells result) (default_lang o) text_id))
  /\ extract Sample.self_keyed default_options = Ok [("en", [("Hello", "Hello")])].
Proof.
  intros raw Hdefault. split; [|reflexivity].
  exists (cell_text cells (default_idx y)), (key_value_of (key_idx y) cells).
  assert (Hne : cell_text cells (default_idx y) <> EmptyString).
  { intros Hs. apply strip_empty in Hs. unfold raw in Hdefault. congruence. }
  split; [apply strip_is_trim|]. split; [exact Hne|]. split.
  { unfold key_value_of. destruct (key_idx y); [apply strip_is_trim|reflexivity]. }
  set (default_value := cell_text cells (default_idx y)) in *.
  set (key_value := key_value_of (key_idx y) cells).
  assert (Hid : text_id_of key_value default_value
                = if decide (key_value = EmptyString) then default_value else key_value).
  { unfold text_id_of. destruct key_value; [reflexivity|].
    now rewrite decide_False by discriminate. }
  cbv zeta. rewrite <- Hid.
  assert (Hcells : extract_cells o y cells result
                   = add_languages (language_columns y) cells
                       (text_id_of key_value default_value)
                       (add_text result (default_lang o)
                          (text_id_of key_value default_value) default_value)).
  { unfold extract_cells. fold default_value. fold key_value.
    destruct default_value eqn:?; [contradiction|reflexivity]. }
  assert (Hentry : text_at (add_text result (default_lang o)
                              (text_id_of key_value default_value) default_value)
                     (default_lang o) (text_id_of key_value default_value)
                   = Some default_value).
  { rewrite text_at_add_text. now rewrite decide_True. }
  split; [exact Hcells|]. split; [exact Hentry|].
  rewrite Hcells. apply add_languages_keeps. rewrite Hentry. eauto.
Qed.

Lemma self_keying_fallback_witness :
  let o := default_options in
  let y := {| max_col := 3; language_columns := [(2, "zh-CN"); (3, "fr")];
              key_idx := Some 0; default_idx := 1; actual_end_row := 2 |} in
  let cells : gmap Z string :=
    {[ 0 := ideographic_space; 1 := " Hello" +:+ no_break_space ]} in
  let raw i := default EmptyString (cells !! i) in
  (exists default_value key_value,
      is_trim_of (raw (default_idx y)) default_value
      /\ default_value <> EmptyString
      /\ match key_idx y with
         | Some k => is_trim_of (raw k) key_value
         | None => key_value = EmptyString
         end
      /\ let text_id :=
           if decide (key_value = EmptyString) then default_value else key_value in
         extract_cells o y cells []
         = add_languages (language_columns y) cells text_id
             (add_text [] (default_lang o) text_id default_value)
         /\ text_at (add_text [] (default_lang o) text_id default_value)
              (default_lang o) text_id = Some default_value
         /\ is_Some (text_at (extract_cells o y cells []) (default_lang o) text_id))
  /\ extract Sample.self_keyed default_options = Ok [("en", [("Hello", "Hello")])].
Proof.
  intros o y cells raw.
  apply (self_keying_fallback o y cells []).
  vm_compute. reflexivity.
Defined.

(** ** Failure leaves the output alone *)

Lemma list_index_None (l : list string) (x : string) :
  list_index l x = None <-> x ∉ l.
Proof.
  induction l as [|y l IH]; cbn.
  - split; [intros _ H; inversion H|reflexivity].
  - rewrite not_elem_of_cons. destruct (decide (y = x)) as [->|Hne].
    + split; [discriminate|]. now intros [? _].
    + destruct (list_index l x); cbn.
      * split; [discriminate|]. intros [_ Hl]. now apply IH in Hl.
      * split; [|reflexivity]. intros _. split; [congruence|]. now apply IH.
Qed.

(** What a run leaves behind: the file system as it was when it raises, and
    the dump of the completely extracted result under the output path when
    it returns. *)
Lemma convert_outcome (fs : gmap string file) (input_path output_path : string)
    (o : options) :
  match convert_to_i18n_json fs input_path output_path o with
  | (fs', Raise _) => fs' = fs
  | (fs', Ok _) =>
      exists zip_ref result,
        fs !! input_path = Some (ZipFile zip_ref)
        /\ extract zip_ref o = Ok result
        /\ fs' = <[output_path := OtherFile (Json.dumps result)]> fs
  end.
Proof.
  unfold convert_to_i18n_json.
  destruct (fs !! input_path) as [[zip_ref|content|]|] eqn:Hin; [|reflexivity..].
  destruct (extract zip_ref o) as [result|e] eqn:Hrun; [|reflexivity].
  destruct (open_w fs output_path) as [[]|e]; [|reflexivity].
  now exists zip_ref, result.
Qed.

(** C5. When the header row has been parsed and lacks the default column
    name, the conversion raises [ValueError], a validation error, and the
    file system is as before; in general a file is written only once the
    extraction of all rows has returned its result. *)
Theorem missing_default_column_fails (fs : gmap string file)
    (input_path output_path : string) (o : options)
    (zip_ref : gmap string member) (shared_strings : list string)
    (sheet_path : string) (name : option string) (sheet_root first : element)
    (rest : list element) (header_cells : gmap Z string) :
  fs !! input_path = Some (ZipFile zip_ref) ->
  load_shared_strings zip_ref = Ok shared_strings ->
  find_sheet_path zip_ref (sheet_name o) = Ok (sheet_path, name) ->
  read_xml zip_ref sheet_path = Ok sheet_root ->
  findall sheet_root (main "row") = first :: rest ->
  parse_row first shared_strings 100 = Ok header_cells ->
  default_column o ∉ build_headers header_cells ->
  convert_to_i18n_json fs input_path output_path o = (fs, Raise ValueError)
  /\ kind_of ValueError = Validation
  /\ (forall fs0 input0 output0 o0,
        match convert_to_i18n_json fs0 input0 output0 o0 with
        | (fs', Raise _) => fs' = fs0
        | (fs', Ok _) =>
            exists zip_ref0 result,
              fs0 !! input0 = Some (ZipFile zip_ref0)
              /\ extract zip_ref0 o0 = Ok result
              /\ fs' = <[output0 := OtherFile (Json.dumps result)]> fs0
        end).
Proof.
  intros Hin Hsst Hpath Hroot Hrows Hheader Hmissing.
  split; [|split; [reflexivity|apply convert_outcome]].
  unfold convert_to_i18n_json, extract. rewrite Hin, Hsst. cbn.
  rewrite Hpath. cbn. rewrite Hroot. cbn. rewrite Hrows.
  unfold read_layout. rewrite Hheader. cbn.
  apply list_index_None in Hmissing. now rewrite Hmissing.
Qed.

Lemma missing_default_column_fails_witness :
  let fs : gmap string file := {[ "in.xlsx" := ZipFile Sample.no_default ]} in
  convert_to_i18n_json fs "in.xlsx" "out.json" default_options = (fs, Raise ValueError)
  /\ kind_of ValueError = Validation
  /\ (forall fs0 input0 output0 o0,
        match convert_to_i18n_json fs0 input0 output0 o0 with
        | (fs', Raise _) => fs' = fs0
        | (fs', Ok _) =>
            exists zip_ref0 result,
              fs0 !! input0 = Some (ZipFile zip_ref0)
              /\ extract zip_ref0 o0 = Ok result
              /\ fs' = <[output0 := OtherFile (Json.dumps result)]> fs0
        end).
Proof.
  intros fs.
  apply (missing_default_column_fails fs "in.xlsx" "out.json" default_options
           Sample.no_default [] "xl/worksheets/sheet1.xml" (Some "Sheet1")
           (Build.sheet [ Build.row "1" [Build.c "A1" "key"; Build.c "B1" "zh_rCN"];
                          Build.row "2" [Build.c "A2" "k"; Build.c "B2" "v"] ])
           (Build.row "1" [Build.c "A1" "key"; Build.c "B1" "zh_rCN"])
           [Build.row "2" [Build.c "A2" "k"; Build.c "B2" "v"]]
           {[ 0 := "key"; 1 := "zh_rCN" ]});
    try (vm_compute; reflexivity).
  apply list_index_None. vm_compute. reflexivity.
Defined.

(** ** Determinism *)





(** ** Row bounds *)

(** A row outside the bounds adds nothing; a row inside adds what its cells
    give. *)
Lemma extract_row_gate (o : options) (y : layout) (shared_strings : list string)
    (result : result_map) (row_elem : element) (row_num : Z) :
  row_number row_elem = Ok row_num ->
  extract_row o y shared_strings result row_elem
  = if decide (start_row o <= row_num <= actual_end_row y)
    then cells_dict ← parse_row row_elem shared_strings (max_col y);
         Ok (extract_cells o y cells_dict result)
    else Ok result.
Proof.
  intros Hnum. unfold extract_row, in_range. rewrite Hnum. cbn.
  destruct (Z.leb_spec (start_row o) row_num), (Z.leb_spec row_num (actual_end_row y));
    cbn; destruct (decide (_ <= _ <= _)); (reflexivity || lia).
Qed.

Lemma effective_end_row_given (o : options) (rows : list element) (e : Z) :
  end_row o = Some e -> e <> 0 -> effective_end_row o rows = e.
Proof.
  intros He Hne. unfold effective_end_row. rewrite He.
  destruct (Z.eqb_spec e 0); congruence.
Qed.

(** C2. Without [end_row] the end bound is the number of rows stored in the
    sheet, not the number of its last row: in a sheet holding rows 1 and 5
    only the bound is 2, row 5 is left out, and it is extracted once
    [end_row] is given as 5. *)
Theorem default_end_row_is_row_count :
  (forall o rows, end_row o = None ->
                  effective_end_row o rows = Z.of_nat (length rows))
  /\ effective_end_row default_options Sample.sparse_rows = 2
  /\ (last Sample.sparse_rows ≫= (fun r => Some (row_number r))) = Some (Ok 5)
  /\ extract Sample.sparse default_options = Ok []
  /\ extract Sample.sparse (Sample.with_end 5) = Ok [("en", [("late", "Five")])].
Proof.
  split.
  - intros o rows He. unfold effective_end_row. now rewrite He.
  - repeat split; vm_compute; reflexivity.
Qed.

(** ** Shared strings *)

(** A shared-string cell with an index from 0: resolved when the index is
    below the length of the table, left out otherwise. *)
Lemma shared_string_cell (shared_strings : list string) (max_col : Z)
    (cells_dict : gmap Z string) (cell v : element) (cell_ref v_text : string)
    (idx : Z) :
  attr cell "r" = Some cell_ref ->
  get_column_index (Py.only_alpha cell_ref) <= max_col ->
  find cell (main "v") = Some v ->
  text_of v = Some v_text ->
  attr cell "t" = Some "s" ->
  Py.int v_text = Some idx ->
  0 <= idx ->
  parse_cell shared_strings max_col cells_dict cell
  = match shared_strings !! Z.to_nat idx with
    | Some s => Ok (<[get_column_index (Py.only_alpha cell_ref) := s]> cells_dict)
    | None => Ok cells_dict
    end.
Proof.
  intros Hr Hcol Hv Htext Ht Hint Hidx.
  unfold parse_cell. rewrite Hr.
  destruct (Z.ltb_spec max_col (get_column_index (Py.only_alpha cell_ref))); [lia|].
  rewrite Hv. cbn. rewrite Htext.
  assert (v_text <> EmptyString) as Hne by (intros ->; discriminate Hint).
  destruct v_text as [|ch rest]; [contradiction|]. cbn [truthy].
  rewrite Ht, bool_decide_eq_true_2 by reflexivity. rewrite Hint.
  destruct (Z.ltb_spec idx (Z.of_nat (length shared_strings))) as [Hlt|Hge].
  - unfold list_getitem.
    destruct (Z.ltb_spec idx 0); [lia|].
    destruct (Z.leb_spec 0 idx); [|lia].
    destruct (Z.ltb_spec idx (Z.of_nat (length shared_strings))); [|lia]. cbn.
    destruct (shared_strings !! Z.to_nat idx) as [s|] eqn:Hs; [reflexivity|].
    apply lookup_ge_None in Hs. lia.
  - rewrite (lookup_ge_None_2 shared_strings (Z.to_nat idx)) by lia. reflexivity.
Qed.

(** C4. The index of a shared-string cell is checked against the length of
    the table only: with five shared strings index 2 gives the third and
    index 5 leaves the cell out, but index -6 raises [IndexError] and index
    -1 stores the last string. *)
Theorem negative_shared_index_not_skipped :
  parse_row (Build.row "2" [Build.cs "A2" "2"]) Sample.strings 100
  = Ok {[ 0 := "s2" ]}
  /\ parse_row (Build.row "2" [Build.cs "A2" "5"]) Sample.strings 100 = Ok ∅
  /\ parse_row (Build.row "2" [Build.cs "A2" "-6"]) Sample.strings 100
     = Raise IndexError
  /\ parse_row (Build.row "2" [Build.cs "A2" "-1"]) Sample.strings 100
     = Ok {[ 0 := "s4" ]}.
Proof. repeat split; vm_compute; reflexivity. Qed.

(** * Further properties of the converter *)

(** ** Column references and indices *)

Lemma upper_char_facts (c : ascii) :
  Ascii.eqb (Py.upper_char (Py.upper_char c)) (Py.upper_char c)
  && implb (Py.isalpha c) (Py.between 65 90 (Py.upper_char c)) = true.
Proof. destruct c as [[] [] [] [] [] [] [] []]; vm_compute; reflexivity. Qed.

Lemma upper_idempotent (s : string) : Py.upper (Py.upper s) = Py.upper s.
Proof.
  induction s as [|c s IH]; [reflexivity|]. cbn. rewrite IH. f_equal.
  pose proof (upper_char_facts c) as [H _]%andb_true_iff.
  now apply Ascii.eqb_eq.
Qed.

Lemma upper_ascii_letters (s : string) :
  ascii_letters s = true -> column_letters (Py.upper s) = true.
Proof.
  induction s as [|c s IH]; [reflexivity|]. cbn [ascii_letters Py.upper column_letters].
  intros [Hc Hs]%andb_true_iff.
  pose proof (upper_char_facts c) as [_ H]%andb_true_iff.
  rewrite Hc in H. cbn in H. now rewrite H, IH.
Qed.

Lemma get_column_index_value (s : string) :
  column_letters s = true -> get_column_index s = bijective_value s - 1.
Proof.
  intros Hs. unfold get_column_index.
  rewrite upper_column_letters, column_loop_value by assumption. lia.
Qed.

Lemma letters_of_value (s : string) :
  column_letters s = true -> letters_of_index (bijective_value s - 1) = s.
Proof.
  intros Hs. unfold letters_of_index.
  replace (bijective_value s - 1 + 1) with (bijective_value s) by lia.
  rewrite numeral_of_value; [apply append_empty_r|assumption|].
  pose proof (bijective_value_nonneg s). lia.
Qed.

Lemma get_column_index_of_upper (s : string) :
  get_column_index (Py.upper s) = get_column_index s.
Proof. unfold get_column_index. now rewrite upper_idempotent. Qed.

(** X1. Two references made of letters denote the same column exactly when
    they are equal up to case: no two columns share an index. *)
Theorem get_column_index_injective (s1 s2 : string) :
  ascii_letters s1 = true ->
  ascii_letters s2 = true ->
  get_column_index s1 = get_column_index s2 <-> Py.upper s1 = Py.upper s2.
Proof.
  intros H1 H2. split.
  - rewrite <- (get_column_index_of_upper s1), <- (get_column_index_of_upper s2).
    apply upper_ascii_letters in H1, H2.
    rewrite !get_column_index_value by assumption. intros Heq.
    rewrite <- (letters_of_value (Py.upper s1)), <- (letters_of_value (Py.upper s2))
      by assumption.
    now rewrite Heq.
  - intros Heq. unfold get_column_index. now rewrite Heq.
Qed.

Lemma get_column_index_injective_witness :
  get_column_index "aZ" = get_column_index "Az" <-> Py.upper "aZ" = Py.upper "Az".
Proof.
  apply (get_column_index_injective "aZ" "Az"); reflexivity.
Defined.

Lemma alphabet_digit (k : nat) :
  (k < 26)%nat ->
  Py.between 65 90 (default "A"%char (String.get k alphabet)) = true
  /\ letter_digit (default "A"%char (String.get k alphabet)) = Z.of_nat k + 1.
Proof.
  intros Hk.
  do 26 (destruct k as [|k]; [split; vm_compute; reflexivity|]). lia.
Qed.

(** The inverse mapping always yields capital letters with the value asked
    for, and at least one letter for a positive value. *)
Lemma numeral_of_letters (fuel : nat) :
  forall (n : Z) (acc : string),
    0 <= n <= Z.of_nat fuel ->
    exists s,
      numeral_of fuel n acc = s +:+ acc
      /\ column_letters s = true
      /\ bijective_value s = n
      /\ (0 < n -> s <> EmptyString).
Proof.
  induction fuel as [|fuel IH]; intros n acc Hn.
  - exists EmptyString. assert (n = 0) as -> by lia.
    repeat split; try reflexivity. lia.
  - cbn [numeral_of]. destruct (Z.leb_spec n 0) as [Hle|Hpos].
    + exists EmptyString. assert (n = 0) as -> by lia.
      repeat split; try reflexivity. lia.
    + pose proof (Z.div_mod (n - 1) 26 ltac:(lia)) as Hdm.
      pose proof (Z.mod_pos_bound (n - 1) 26 ltac:(lia)) as Hmod.
      assert (Hq : 0 <= (n - 1) / 26) by (apply Z.div_pos; lia).
      destruct (alphabet_digit (Z.to_nat ((n - 1) mod 26)) ltac:(lia)) as [Hc Hd].
      set (c := default "A"%char (String.get (Z.to_nat ((n - 1) mod 26)) alphabet)) in *.
      destruct (IH ((n - 1) / 26) (String c acc) ltac:(lia)) as (s & Hs & Hl & Hv & _).
      exists (s +:+ String c EmptyString). repeat split.
      * now rewrite Hs, append_snoc.
      * now rewrite column_letters_snoc, Hl, Hc.
      * rewrite bijective_value_snoc, Hv, Hd. lia.
      * intros _. destruct s; discriminate.
Qed.

(** X2. Every index from 0 on is the index of a column reference: the
    reference built by the inverse numeral mapping is a non-empty string of
    capital letters that [get_column_index] sends back to the index. *)
Theorem get_column_index_surjective (n : Z) :
  0 <= n ->
  column_letters (letters_of_index n) = true
  /\ letters_of_index n <> EmptyString
  /\ get_column_index (letters_of_index n) = n.
Proof.
  intros Hn. unfold letters_of_index.
  destruct (numeral_of_letters (Z.to_nat (n + 1)) (n + 1) EmptyString ltac:(lia))
    as (s & Hs & Hl & Hv & Hne).
  rewrite Hs, append_empty_r.
  split; [exact Hl|]. split; [apply Hne; lia|].
  rewrite get_column_index_value by assumption. lia.
Qed.

Lemma get_column_index_surjective_witness :
  column_letters (letters_of_index 701) = true
  /\ letters_of_index 701 <> EmptyString
  /\ get_column_index (letters_of_index 701) = 701.
Proof.
  apply (get_column_index_surjective 701). lia.
Defined.

(** ** Row parsing *)

Lemma only_alpha_letters (s : string) : ascii_letters (Py.only_alpha s) = true.
Proof.
  induction s as [|c s IH]; [reflexivity|]. cbn [Py.only_alpha].
  destruct (Py.isalpha c) eqn:Hc; [|exact IH].
  cbn [ascii_letters]. now rewrite Hc, IH.
Qed.

Lemma cell_column_lower_bound (cell_ref : string) :
  -1 <= get_column_index (Py.only_alpha cell_ref).
Proof.
  rewrite <- get_column_index_of_upper.
  rewrite get_column_index_value by apply upper_ascii_letters, only_alpha_letters.
  pose proof (bijective_value_nonneg (Py.upper (Py.only_alpha cell_ref))). lia.
Qed.

(** What one cell can do to the mapping: nothing, or one insertion at a
    column within the bound of a text that is not empty or is a shared
    string. *)
Lemma parse_cell_step (shared_strings : list string) (max_col : Z)
    (cells_dict cells_dict' : gmap Z string) (cell : element) :
  parse_cell shared_strings max_col cells_dict cell = Ok cells_dict' ->
  cells_dict' = cells_dict
  \/ exists col_idx s,
       cells_dict' = <[col_idx := s]> cells_dict
       /\ -1 <= col_idx <= max_col
       /\ (s <> EmptyString \/ s ∈ shared_strings).
Proof.
  unfold parse_cell.
  destruct (attr cell "r") as [cell_ref|]; [|discriminate].
  pose proof (cell_column_lower_bound cell_ref) as Hlow.
  destruct (Z.ltb_spec max_col (get_column_index (Py.only_alpha cell_ref))) as [Hgt|Hle].
  { intros [= <-]. now left. }
  destruct (find cell (main "v") ≫= _) as [v_text|] eqn:Hv; [|intros [= <-]; now left].
  assert (Hne : v_text <> EmptyString).
  { destruct (find cell (main "v")) as [v|]; [|discriminate]. cbn in Hv.
    destruct (text_of v) as [[|? ?]|]; cbn in Hv; congruence. }
  destruct (bool_decide (attr cell "t" = Some "s")).
  - destruct (Py.int v_text) as [idx|]; [|discriminate].
    destruct (idx <? Z.of_nat (length shared_strings)); [|intros [= <-]; now left].
    intros (s & Hs & [= <-])%bind_Ok. right.
    exists (get_column_index (Py.only_alpha cell_ref)), s.
    split; [reflexivity|]. split; [lia|]. right.
    unfold list_getitem in Hs.
    destruct (_ && _); [|discriminate].
    destruct (shared_strings !! _) as [x|] eqn:Hx; [|discriminate].
    injection Hs as <-. apply list_elem_of_lookup. eauto.
  - intros [= <-]. right.
    exists (get_column_index (Py.only_alpha cell_ref)), v_text.
    split; [reflexivity|]. split; [lia|]. now left.
Qed.

Lemma parse_cells_invariant (shared_strings : list string) (max_col : Z)
    (P : gmap Z string -> Prop) :
  (forall d col_idx s,
      P d -> -1 <= col_idx <= max_col ->
      s <> EmptyString \/ s ∈ shared_strings ->
      P (<[col_idx := s]> d)) ->
  forall cells d d',
    P d -> parse_cells shared_strings max_col d cells = Ok d' -> P d'.
Proof.
  intros Hstep cells.
  induction cells as [|cell cells IH]; intros d d' HP Hrun.
  - cbn in Hrun. congruence.
  - cbn [parse_cells] in Hrun. apply bind_Ok in Hrun as (d1 & Hcell & Hrest).
    apply (IH d1 d'); [|exact Hrest].
    apply parse_cell_step in Hcell as [->|(col_idx & s & -> & Hcol & Hs)];
      [exact HP|now apply Hstep].
Qed.

(** X3. Every entry of a parsed row sits at a column index between -1 and
    the bound given to [parse_row] (-1 for a reference without letters), and
    its text is not empty unless it is an (empty) shared string. *)
Theorem parse_row_entries (row_elem : element) (shared_strings : list string)
    (max_col : Z) (cells_dict : gmap Z string) :
  parse_row row_elem shared_strings max_col = Ok cells_dict ->
  forall col_idx s,
    cells_dict !! col_idx = Some s ->
    -1 <= col_idx <= max_col /\ (s <> EmptyString \/ s ∈ shared_strings).
Proof.
  unfold parse_row.
  apply (parse_cells_invariant shared_strings max_col
           (fun d => forall col_idx s, d !! col_idx = Some s ->
                       -1 <= col_idx <= max_col
                       /\ (s <> EmptyString \/ s ∈ shared_strings))).
  - intros d col_idx s Hd Hcol Hs k t.
    rewrite lookup_insert. destruct (decide (col_idx = k)) as [<-|Hne].
    + now intros [= <-].
    + apply Hd.
  - intros k t. now rewrite lookup_empty.
Qed.

Lemma parse_row_entries_witness :
  -1 <= 1 <= 2 /\ (" Hello " <> EmptyString \/ " Hello " ∈ Sample.strings).
Proof.
  apply (parse_row_entries
           (Build.row "2" [Build.c "A2" "greeting"; Build.c "B2" " Hello ";
                           Build.cs "C2" "2"; Build.c "D2" "Bonjour"])
           Sample.strings 2 {[ 0 := "greeting"; 1 := " Hello "; 2 := "s2" ]}).
  - vm_compute. reflexivity.
  - vm_compute. reflexivity.
Defined.

Lemma parse_cells_app (shared_strings : list string) (max_col : Z)
    (l1 l2 : list element) :
  forall d,
    parse_cells shared_strings max_col d (l1 ++ l2)
    = parse_cells shared_strings max_col d l1
        ≫= fun d' => parse_cells shared_strings max_col d' l2.
Proof.
  induction l1 as [|cell l1 IH]; intros d; [reflexivity|].
  cbn [app parse_cells].
  destruct (parse_cell shared_strings max_col d cell) as [d1|e]; cbn; [apply IH|reflexivity].
Qed.

(** X4. A cell whose column lies beyond the bound is passed over before its
    value is looked at: whatever it holds, even an index that is no number,
    the row parses as if the cell were not there. *)
Theorem parse_cells_skips_beyond_bound (shared_strings : list string) (max_col : Z)
    (before after : list element) (cell : element) (cell_ref : string)
    (cells_dict : gmap Z string) :
  attr cell "r" = Some cell_ref ->
  max_col < get_column_index (Py.only_alpha cell_ref) ->
  parse_cells shared_strings max_col cells_dict (before ++ cell :: after)
  = parse_cells shared_strings max_col cells_dict (before ++ after).
Proof.
  intros Hr Hcol. rewrite !parse_cells_app.
  destruct (parse_cells shared_strings max_col cells_dict before) as [d|e];
    cbn; [|reflexivity].
  unfold parse_cell. rewrite Hr.
  destruct (Z.ltb_spec max_col (get_column_index (Py.only_alpha cell_ref))); [|lia].
  reflexivity.
Qed.

Lemma parse_cells_skips_beyond_bound_witness :
  parse_cells Sample.strings 1 ∅
    ([Build.c "A2" "k"] ++ Build.cs "C2" "none" :: [Build.c "B2" "v"])
  = parse_cells Sample.strings 1 ∅ ([Build.c "A2" "k"] ++ [Build.c "B2" "v"]).
Proof.
  apply (parse_cells_skips_beyond_bound Sample.strings 1
           [Build.c "A2" "k"] [Build.c "B2" "v"] (Build.cs "C2" "none") "C2" ∅).
  - reflexivity.
  - vm_compute. reflexivity.
Defined.

(** ** The header row *)

Lemma max_of_list (l : list Z) :
  match foldr (fun k acc => Some (from_option (Z.max k) k acc)) None l with
  | None => l = []
  | Some m => m ∈ l /\ forall k, k ∈ l -> k <= m
  end.
Proof.
  induction l as [|x l IH]; [reflexivity|]. cbn [foldr].
  destruct (foldr _ None l) as [m|]; cbn [from_option].
  - destruct IH as [Hm Hmax]. split.
    + destruct (Z.max_spec x m) as [[_ ->]|[_ ->]];
        [now apply list_elem_of_further|apply list_elem_of_here].
    + intros k [->|Hk]%elem_of_cons; [lia|]. specialize (Hmax k Hk). lia.
  - subst l. split; [apply list_elem_of_here|].
    intros k [->|Hk]%elem_of_cons; [lia|inversion Hk].
Qed.

Lemma key_of_map_to_list (d : gmap Z string) (k : Z) :
  k ∈ (map_to_list d).*1 <-> is_Some (d !! k).
Proof.
  rewrite list_elem_of_fmap. split.
  - intros ([k' s] & -> & Hin). apply elem_of_map_to_list in Hin. cbn. eauto.
  - intros [s Hs]. exists (k, s). split; [reflexivity|]. now apply elem_of_map_to_list.
Qed.

(** [max(d.keys())] is a key and no key is larger. *)
Lemma max_key_spec (d : gmap Z string) :
  match max_key d with
  | None => d = ∅
  | Some m => is_Some (d !! m) /\ forall k, is_Some (d !! k) -> k <= m
  end.
Proof.
  unfold max_key. pose proof (max_of_list (map_to_list d).*1) as H.
  destruct (foldr _ None _) as [m|].
  - destruct H as [Hm Hmax]. split; [now apply key_of_map_to_list|].
    intros k Hk. apply Hmax. now apply key_of_map_to_list.
  - apply fmap_nil_inv in H. now apply map_to_list_empty_iff.
Qed.

Lemma header_max_col_bound (d : gmap Z string) (k : Z) :
  is_Some (d !! k) -> k <= header_max_col d.
Proof.
  intros Hk. unfold header_max_col. pose proof (max_key_spec d) as H.
  destruct (max_key d) as [m|]; cbn.
  - now apply H.
  - subst d. rewrite lookup_empty in Hk. now destruct Hk.
Qed.

Lemma build_headers_lookup (header_cells : gmap Z string) (i : Z) :
  0 <= i <= header_max_col header_cells ->
  build_headers header_cells !! Z.to_nat i
  = Some match cell_text header_cells i with
         | EmptyString => "col_" +:+ Py.str i
         | header => header
         end.
Proof.
  intros Hi. unfold build_headers.
  rewrite list_lookup_fmap, lookup_seqZ_lt by lia. cbn.
  now replace (0 + Z.of_nat (Z.to_nat i)) with i by lia.
Qed.

(** X5. The header list has one name for each column from 0 to the largest
    header column; no name is empty; a header cell is named by its text
    without the white space around it, unless that leaves nothing; a column
    whose header cell is absent or holds only white space is named
    [col_<index>]. *)
Theorem build_headers_shape (header_cells : gmap Z string) :
  length (build_headers header_cells) = Z.to_nat (header_max_col header_cells + 1)
  /\ (forall h, h ∈ build_headers header_cells -> h <> EmptyString)
  /\ (forall i t,
        header_cells !! i = Some t -> 0 <= i -> Py.whitespace_only t = false ->
        exists h, build_headers header_cells !! Z.to_nat i = Some h
                  /\ h <> EmptyString /\ is_trim_of t h)
  /\ (forall i,
        0 <= i <= header_max_col header_cells ->
        header_cells !! i = None
        \/ (exists t, header_cells !! i = Some t /\ Py.whitespace_only t = true) ->
        build_headers header_cells !! Z.to_nat i = Some ("col_" +:+ Py.str i)).
Proof.
  split; [|split; [|split]].
  - unfold build_headers. now rewrite length_fmap, length_seqZ.
  - unfold build_headers. intros h (i & -> & _)%list_elem_of_fmap.
    destruct (cell_text header_cells i); discriminate.
  - intros i t Ht Hi Hne. exists (Py.strip t).
    assert (Hstrip : Py.strip t <> EmptyString)
      by (intros Hs%strip_empty; congruence).
    split; [|split; [exact Hstrip|apply strip_is_trim]].
    rewrite build_headers_lookup
      by (split; [assumption|apply header_max_col_bound; rewrite Ht; eauto]).
    unfold cell_text. rewrite Ht.
    change (default EmptyString (Some t)) with t.
    destruct (Py.strip t); [contradiction|reflexivity].
  - intros i Hi Hempty%cell_text_empty. rewrite build_headers_lookup by assumption.
    now rewrite Hempty.
Qed.

(** X6. The header row is read up to column index 100 only: the header list
    never has more than 101 names, whatever the width of the sheet. *)
Theorem header_scan_is_bounded (first_row_elem : element)
    (shared_strings : list string) (header_cells : gmap Z string) :
  parse_row first_row_elem shared_strings 100 = Ok header_cells ->
  header_max_col header_cells <= 100
  /\ (length (build_headers header_cells) <= 101)%nat.
Proof.
  intros Hrow.
  assert (Hkeys : forall k, is_Some (header_cells !! k) -> k <= 100).
  { revert Hrow. unfold parse_row.
    apply (parse_cells_invariant shared_strings 100
             (fun d => forall k, is_Some (d !! k) -> k <= 100)).
    - intros d col_idx s Hd Hcol _ k. rewrite lookup_insert.
      destruct (decide (col_idx = k)) as [<-|Hne]; [lia|apply Hd].
    - intros k. rewrite lookup_empty. now intros [? ?]. }
  assert (Hmax : header_max_col header_cells <= 100).
  { unfold header_max_col. pose proof (max_key_spec header_cells) as H.
    destruct (max_key header_cells) as [m|]; cbn; [|lia].
    apply Hkeys, H. }
  split; [exact Hmax|].
  unfold build_headers. rewrite length_fmap, length_seqZ. lia.
Qed.

Lemma header_scan_is_bounded_witness :
  let header_cells : gmap Z string := {[ 0 := "key"; 1 := "default" ]} in
  header_max_col header_cells <= 100
  /\ (length (build_headers header_cells) <= 101)%nat.
Proof.
  intros header_cells.
  apply (header_scan_is_bounded
           (Build.row "1" [Build.c "A1" "key"; Build.c "B1" "default";
                           Build.c "CX1" "beyond"])
           []).
  vm_compute. reflexivity.
Defined.

Lemma list_index_Some (l : list string) (x : string) :
  forall i,
    list_index l x = Some i ->
    0 <= i /\ l !! Z.to_nat i = Some x
    /\ forall j, 0 <= j < i -> l !! Z.to_nat j <> Some x.
Proof.
  induction l as [|y l IH]; intros i; cbn [list_index]; [discriminate|].
  destruct (decide (y = x)) as [->|Hne].
  - intros [= <-]. repeat split; [lia|]. intros j Hj. lia.
  - destruct (list_index l x) as [i'|]; [|discriminate]. cbn. intros [= <-].
    destruct (IH i' eq_refl) as (Hi & Hl & Hleft).
    split; [lia|]. split.
    + replace (Z.to_nat (Z.succ i')) with (S (Z.to_nat i')) by lia.
      change ((y :: l) !! S (Z.to_nat i')) with (l !! Z.to_nat i'). exact Hl.
    + intros j Hj. destruct (decide (j = 0)) as [->|Hj0].
      * change ((y :: l) !! Z.to_nat 0) with (Some y). congruence.
      * replace (Z.to_nat j) with (S (Z.to_nat (j - 1))) by lia.
        change ((y :: l) !! S (Z.to_nat (j - 1))) with (l !! Z.to_nat (j - 1)).
        apply Hleft. lia.
Qed.

(** X7. The default column and the key column are the leftmost columns
    carrying those header names; a key column is found exactly when the
    header list has the key name. *)
Theorem layout_takes_leftmost_columns (o : options) (shared_strings : list string)
    (first : element) (rest : list element) (header_cells : gmap Z string)
    (y : layout) :
  parse_row first shared_strings 100 = Ok header_cells ->
  read_layout o shared_strings (first :: rest) = Ok y ->
  let headers := build_headers header_cells in
  (0 <= default_idx y
   /\ headers !! Z.to_nat (default_idx y) = Some (default_column o)
   /\ forall j, 0 <= j < default_idx y ->
                headers !! Z.to_nat j <> Some (default_column o))
  /\ (forall k, key_idx y = Some k ->
                0 <= k /\ headers !! Z.to_nat k = Some (key_column o)
                /\ forall j, 0 <= j < k -> headers !! Z.to_nat j <> Some (key_column o))
  /\ (key_idx y = None <-> key_column o ∉ headers).
Proof.
  intros Hheader Hlayout headers. unfold read_layout in Hlayout.
  rewrite Hheader in Hlayout. cbn in Hlayout. fold headers in Hlayout.
  destruct (list_index headers (default_column o)) as [d|] eqn:Hd; [|discriminate].
  injection Hlayout as <-. cbn [default_idx key_idx].
  split; [now apply list_index_Some|].
  split; [intros k Hk; now apply list_index_Some|apply list_index_None].
Qed.

Lemma layout_takes_leftmost_columns_witness :
  let o := default_options in
  let y := {| max_col := 2; language_columns := [];
              key_idx := Some 0; default_idx := 1; actual_end_row := 1 |} in
  let headers := build_headers ({[ 0 := "key"; 1 := "default"; 2 := "default" ]}
                                 : gmap Z string) in
  (0 <= default_idx y
   /\ headers !! Z.to_nat (default_idx y) = Some (default_column o)
   /\ forall j, 0 <= j < default_idx y ->
                headers !! Z.to_nat j <> Some (default_column o))
  /\ (forall k, key_idx y = Some k ->
                0 <= k /\ headers !! Z.to_nat k = Some (key_column o)
                /\ forall j, 0 <= j < k -> headers !! Z.to_nat j <> Some (key_column o))
  /\ (key_idx y = None <-> key_column o ∉ headers).
Proof.
  intros o y.
  apply (layout_takes_leftmost_columns o []
           (Build.row "1" [Build.c "A1" "key"; Build.c "B1" "default";
                           Build.c "C1" "default"])
           [] {[ 0 := "key"; 1 := "default"; 2 := "default" ]} y);
    vm_compute; reflexivity.
Defined.

(** X8. A column whose header is the key name, the default name or one of
    the excluded names is never a language column. *)
Theorem meta_columns_never_language (o : options) (headers : list string)
    (idx : Z) (header : string) :
  headers !! Z.to_nat idx = Some header ->
  header = key_column o \/ header = default_column o
  \/ header ∈ default default_exclude_columns (exclude_columns o) ->
  dict_get (identify_language_columns o headers) idx = None.
Proof.
  intros Hheader Hmeta. rewrite language_columns_lookup.
  destruct (decide (0 <= idx)); [|reflexivity]. rewrite Hheader.
  replace (is_language_header (meta_columns o) header) with false; [reflexivity|].
  unfold is_language_header.
  rewrite (bool_decide_eq_false_2 (header ∉ meta_columns o)).
  - now rewrite andb_false_r.
  - intros Hnot. apply Hnot. unfold meta_columns. apply elem_of_union.
    destruct Hmeta as [->|[->|Hex]]; [left|left|right; exact Hex];
      apply elem_of_union; [left|right]; now apply elem_of_singleton.
Qed.

Lemma meta_columns_never_language_witness :
  dict_get (identify_language_columns default_options
              ["key"; "default"; "location"; "fr"]) 2 = None.
Proof.
  apply (meta_columns_never_language default_options
           ["key"; "default"; "location"; "fr"] 2 "location").
  - reflexivity.
  - right. right. vm_compute. reflexivity.
Defined.

(** ** Trimmed keys and texts *)

Lemma cell_text_trimmed (cells : gmap Z string) (i : Z) :
  Py.strip (cell_text cells i) = cell_text cells i.
Proof. unfold cell_text. apply strip_idempotent. Qed.

Lemma add_languages_texts (T : string -> Prop) (text_id : string)
    (cells : gmap Z string) (lc : list (Z * string)) :
  (forall i, cell_text cells i <> EmptyString -> T (cell_text cells i)) ->
  T text_id ->
  forall result,
    (forall lang key v, text_at result lang key = Some v -> T key /\ T v) ->
    forall lang key v,
      text_at (add_languages lc cells text_id result) lang key = Some v ->
      T key /\ T v.
Proof.
  intros Hcell Hid. unfold add_languages.
  induction lc as [|[col_idx lang_code] lc IH]; intros result HT; [exact HT|].
  cbn [foldl].
  destruct (cell_text cells col_idx) as [|ch rest] eqn:Hc; [now apply IH|].
  apply IH. intros lang key v. rewrite text_at_add_text.
  destruct (decide (_ /\ _)) as [[-> ->]|_]; [|apply HT].
  intros [= <-]. split; [exact Hid|]. rewrite <- Hc. apply Hcell. now rewrite Hc.
Qed.

Lemma extract_cells_texts (T : string -> Prop) (o : options) (y : layout)
    (cells : gmap Z string) (result : result_map) :
  (forall i, cell_text cells i <> EmptyString -> T (cell_text cells i)) ->
  (forall lang key v, text_at result lang key = Some v -> T key /\ T v) ->
  forall lang key v,
    text_at (extract_cells o y cells result) lang key = Some v -> T key /\ T v.
Proof.
  intros Hcell HT. unfold extract_cells.
  destruct (cell_text cells (default_idx y)) as [|ch rest] eqn:Hd; [exact HT|].
  assert (Hdv : T (String ch rest)) by (rewrite <- Hd; apply Hcell; now rewrite Hd).
  assert (Hid : T (text_id_of (key_value_of (key_idx y) cells) (String ch rest))).
  { unfold text_id_of, key_value_of. destruct (key_idx y) as [k|]; [|exact Hdv].
    destruct (cell_text cells k) as [|kc kr] eqn:Hk; [exact Hdv|].
    rewrite <- Hk. apply Hcell. now rewrite Hk. }
  apply add_languages_texts; [exact Hcell|exact Hid|].
  intros lang key v. rewrite text_at_add_text.
  destruct (decide (_ /\ _)) as [[-> ->]|_]; [|apply HT].
  now intros [= <-].
Qed.

(** X9. Every key and every text a conversion produces is trimmed: it is not
    empty, [strip] leaves it unchanged, and it neither begins nor ends with
    a run of white space. *)
Theorem result_texts_are_trimmed (zip_ref : gmap string member) (o : options)
    (result : result_map) :
  extract zip_ref o = Ok result ->
  forall lang texts key value,
    dict_get result lang = Some texts ->
    dict_get texts key = Some value ->
    (key <> EmptyString /\ Py.strip key = key /\ no_space_at_ends key)
    /\ (value <> EmptyString /\ Py.strip value = value /\ no_space_at_ends value).
Proof.
  intros Hrun lang texts key value Htexts Hvalue.
  apply (extract_invariant o
           (fun result => forall lang key v, text_at result lang key = Some v ->
              (key <> EmptyString /\ Py.strip key = key /\ no_space_at_ends key)
              /\ (v <> EmptyString /\ Py.strip v = v /\ no_space_at_ends v)))
    with (zip_ref := zip_ref) (result := result) (lang := lang).
  - intros l k v. unfold text_at. cbn. discriminate.
  - intros y cells r.
    apply (extract_cells_texts
             (fun s => s <> EmptyString /\ Py.strip s = s /\ no_space_at_ends s)).
    intros i Hi. split; [exact Hi|]. split; [apply cell_text_trimmed|].
    apply strip_no_space_at_ends.
  - exact Hrun.
  - unfold text_at. now rewrite Htexts.
Qed.

Lemma result_texts_are_trimmed_witness :
  ("greeting" <> EmptyString /\ Py.strip "greeting" = "greeting"
   /\ no_space_at_ends "greeting")
  /\ ("Bonjour" <> EmptyString /\ Py.strip "Bonjour" = "Bonjour"
      /\ no_space_at_ends "Bonjour").
Proof.
  apply (result_texts_are_trimmed Sample.translations default_options
           [("en", [("greeting", "Hello"); ("Hello", "Hello")]);
            ("zh-CN", [("greeting", "s2")]);
            ("fr", [("greeting", "Bonjour")])]
           eq_refl "fr" [("greeting", "Bonjour")] "greeting" "Bonjour");
    reflexivity.
Defined.

(** ** The shape of the result mapping *)

Section odict_shape.
Context {K V : Type} `{EqDecision K}.
Implicit Types (d : list (K * V)) (k : K) (v : V).

Lemma elem_of_dict_set d k v k' v' :
  (k', v') ∈ dict_set d k v -> (k' = k /\ v' = v) \/ (k', v') ∈ d.
Proof.
  induction d as [|[k0 v0] d IH]; cbn.
  - intros [[= -> ->]|Hin]%elem_of_cons; [now left|inversion Hin].
  - destruct (decide (k = k0)) as [->|Hne].
    + intros [[= -> ->]|Hin]%elem_of_cons; [now left|].
      right. now apply list_elem_of_further.
    + intros [[= -> ->]|Hin]%elem_of_cons; [right; apply list_elem_of_here|].
      destruct (IH Hin) as [?|?]; [now left|right; now apply list_elem_of_further].
Qed.

Lemma dict_set_keys d k v k' :
  k' ∈ dict_keys (dict_set d k v) <-> k' = k \/ k' ∈ dict_keys d.
Proof.
  unfold dict_keys. induction d as [|[k0 v0] d IH]; cbn.
  - rewrite elem_of_cons. split; (intros [?|?]; [now left|now right]).
  - destruct (decide (k = k0)) as [->|Hne]; cbn; rewrite !elem_of_cons.
    + tauto.
    + rewrite IH. tauto.
Qed.

Lemma dict_set_NoDup d k v :
  NoDup (dict_keys d) -> NoDup (dict_keys (dict_set d k v)).
Proof.
  unfold dict_keys. induction d as [|[k0 v0] d IH]; cbn; intros Hd.
  - apply NoDup_singleton.
  - apply NoDup_cons in Hd as [Hk0 Hd].
    destruct (decide (k = k0)) as [->|Hne]; cbn; apply NoDup_cons.
    + now split.
    + split; [|now apply IH].
      intros [->|Hin]%dict_set_keys; [congruence|contradiction].
Qed.

Lemma dict_set_nonempty d k v : dict_set d k v <> [].
Proof.
  destruct d as [|[k0 v0] d]; cbn; [discriminate|].
  destruct (decide (k = k0)); discriminate.
Qed.

Lemma dict_get_elem d k v :
  NoDup (dict_keys d) -> (k, v) ∈ d -> dict_get d k = Some v.
Proof.
  unfold dict_keys. induction d as [|[k0 v0] d IH]; cbn; intros Hd Hin.
  - inversion Hin.
  - apply NoDup_cons in Hd as [Hk0 Hd].
    apply elem_of_cons in Hin as [[= -> ->]|Hin].
    + now rewrite decide_True.
    + destruct (decide (k = k0)) as [->|Hne]; [|now apply IH].
      exfalso. apply Hk0. apply list_elem_of_fmap. now exists (k0, v).
Qed.

Lemma dict_get_keys d k : is_Some (dict_get d k) <-> k ∈ dict_keys d.
Proof.
  unfold dict_keys. induction d as [|[k0 v0] d IH]; cbn.
  - split; [intros [? [=]]|intros Hin; inversion Hin].
  - rewrite elem_of_cons. destruct (decide (k = k0)) as [->|Hne].
    + split; [now left|eauto].
    + rewrite IH. tauto.
Qed.

End odict_shape.

Lemma add_text_shape (result : result_map) (lang key value : string) :
  (NoDup (dict_keys result)
   /\ forall l texts, dict_get result l = Some texts ->
                      texts <> [] /\ NoDup (dict_keys texts)) ->
  NoDup (dict_keys (add_text result lang key value))
  /\ forall l texts, dict_get (add_text result lang key value) l = Some texts ->
                     texts <> [] /\ NoDup (dict_keys texts).
Proof.
  intros [Hlangs Htexts]. split.
  - unfold add_text. apply dict_set_NoDup.
    destruct (dict_has result lang); [exact Hlangs|now apply dict_set_NoDup].
  - intros l texts. rewrite add_text_get.
    destruct (decide (l = lang)) as [->|Hne]; [|apply Htexts].
    intros [= <-]. split; [apply dict_set_nonempty|]. apply dict_set_NoDup.
    destruct (dict_get result lang) as [old|] eqn:Hold; cbn.
    + now apply (Htexts lang).
    + apply NoDup_nil_2.
Qed.

Lemma extract_cells_shape (o : options) (y : layout) (cells : gmap Z string)
    (result : result_map) :
  (NoDup (dict_keys result)
   /\ forall l texts, dict_get result l = Some texts ->
                      texts <> [] /\ NoDup (dict_keys texts)) ->
  NoDup (dict_keys (extract_cells o y cells result))
  /\ forall l texts, dict_get (extract_cells o y cells result) l = Some texts ->
                     texts <> [] /\ NoDup (dict_keys texts).
Proof.
  intros Hshape. unfold extract_cells.
  destruct (cell_text cells (default_idx y)) as [|ch rest]; [exact Hshape|].
  unfold add_languages.
  generalize (text_id_of (key_value_of (key_idx y) cells) (String ch rest)).
  intros text_id. apply (add_text_shape _ (default_lang o) text_id (String ch rest)) in Hshape.
  revert Hshape. generalize (add_text result (default_lang o) text_id (String ch rest)).
  induction (language_columns y) as [|[col_idx lang_code] lc IH]; intros r Hr; [exact Hr|].
  cbn [foldl]. destruct (cell_text cells col_idx); [now apply IH|].
  apply IH. now apply add_text_shape.
Qed.

(** X10. The result mapping is a proper two-level JSON object: no language
    occurs twice, no language has an empty set of texts, and no key occurs
    twice under a language. *)
Theorem result_is_json_object (zip_ref : gmap string member) (o : options)
    (result : result_map) :
  extract zip_ref o = Ok result ->
  NoDup (dict_keys result)
  /\ forall lang texts,
       (lang, texts) ∈ result -> texts <> [] /\ NoDup (dict_keys texts).
Proof.
  intros Hrun.
  assert (H : NoDup (dict_keys result)
              /\ forall l texts, dict_get result l = Some texts ->
                                 texts <> [] /\ NoDup (dict_keys texts)).
  { revert zip_ref result Hrun.
    apply (extract_invariant o
             (fun result =>
                NoDup (dict_keys result)
                /\ forall l texts, dict_get result l = Some texts ->
                                   texts <> [] /\ NoDup (dict_keys texts))).
    - split; [apply NoDup_nil_2|]. intros l texts. cbn. discriminate.
    - intros y cells r. apply extract_cells_shape. }
  destruct H as [Hlangs Htexts]. split; [exact Hlangs|].
  intros lang texts Hin. apply (Htexts lang). now apply dict_get_elem.
Qed.

Lemma result_is_json_object_witness :
  let result := [("en", [("greeting", "Hello"); ("Hello", "Hello")]);
                 ("zh-CN", [("greeting", "s2")]);
                 ("fr", [("greeting", "Bonjour")])] in
  NoDup (dict_keys result)
  /\ forall lang texts,
       (lang, texts) ∈ result -> texts <> [] /\ NoDup (dict_keys texts).
Proof.
  exact (result_is_json_object Sample.translations default_options _ eq_refl).
Defined.

(** ** Which languages and which keys a row touches *)

Lemma extract_rows_invariant_at (o : options) (y : layout) (P : result_map -> Prop) :
  (forall cells result, P result -> P (extract_cells o y cells result)) ->
  forall shared_strings rows result result',
    P result ->
    extract_rows o y shared_strings result rows = Ok result' ->
    P result'.
Proof.
  intros Hstep shared_strings rows.
  induction rows as [|row_elem rows IH]; intros result result' HP Hrun.
  - cbn in Hrun. congruence.
  - cbn [extract_rows] in Hrun.
    apply bind_Ok in Hrun as (result1 & Hrow & Hrest).
    apply (IH result1 result'); [|exact Hrest].
    unfold extract_row in Hrow.
    apply bind_Ok in Hrow as (row_num & _ & Hrow).
    destruct (in_range o y row_num).
    + apply bind_Ok in Hrow as (cells & _ & [= <-]). now apply Hstep.
    + now injection Hrow as <-.
Qed.

(** A successful extraction went through a layout read from the header row. *)
Lemma extract_Ok (zip_ref : gmap string member) (o : options) (result : result_map) :
  extract zip_ref o = Ok result ->
  exists shared_strings first rest header_cells y,
    parse_row first shared_strings 100 = Ok header_cells
    /\ read_layout o shared_strings (first :: rest) = Ok y
    /\ language_columns y = identify_language_columns o (build_headers header_cells)
    /\ extract_rows o y shared_strings [] (first :: rest) = Ok result.
Proof.
  intros Hrun. unfold extract in Hrun.
  apply bind_Ok in Hrun as (shared_strings & _ & Hrun).
  apply bind_Ok in Hrun as ([sheet_path name] & _ & Hrun).
  apply bind_Ok in Hrun as (sheet_root & _ & Hrun).
  apply bind_Ok in Hrun as (y & Hlayout & Hrun).
  destruct (findall sheet_root (main "row")) as [|first rest]; [discriminate|].
  pose proof Hlayout as Hl. unfold read_layout in Hl.
  apply bind_Ok in Hl as (header_cells & Hheader & Hl).
  destruct (list_index _ _) as [d|]; [|discriminate]. injection Hl as <-.
  eexists shared_strings, first, rest, header_cells, _.
  split; [exact Hheader|]. split; [exact Hlayout|]. split; [reflexivity|exact Hrun].
Qed.

Lemma language_fold_tags (o : options) (l : list string) :
  forall (i : Z) (acc : list (Z * string)) (idx : Z) (tag : string),
    (idx, tag) ∈ foldl (language_step (meta_columns o) (use_abbrev o)) acc
                   (enumerate_from i l) ->
    (idx, tag) ∈ acc
    \/ exists header, header ∈ l
                      /\ is_language_header (meta_columns o) header = true
                      /\ tag = tag_of_header o header.
Proof.
  induction l as [|h l IH]; intros i acc idx tag; cbn [enumerate_from foldl]; [now left|].
  intros [Hin|(header & Hh & Hlang & ->)]%IH.
  - unfold language_step in Hin.
    destruct (is_language_header (meta_columns o) h) eqn:Hlang; [|now left].
    apply elem_of_dict_set in Hin as [[_ ->]|Hin]; [|now left].
    right. exists h. split; [apply list_elem_of_here|]. now split.
  - right. exists header. split; [now apply list_elem_of_further|]. now split.
Qed.

Lemma add_languages_langs (lc : list (Z * string)) (cells : gmap Z string)
    (text_id : string) :
  forall result lang,
    is_Some (dict_get (add_languages lc cells text_id result) lang) ->
    is_Some (dict_get result lang) \/ exists idx, (idx, lang) ∈ lc.
Proof.
  unfold add_languages.
  induction lc as [|[col_idx lang_code] lc IH]; intros result lang; cbn [foldl]; [now left|].
  intros [Hin|[idx Hidx]]%IH.
  - destruct (cell_text cells col_idx); [now left|].
    rewrite add_text_get in Hin.
    destruct (decide (lang = lang_code)) as [->|Hne]; [|now left].
    right. exists col_idx. apply list_elem_of_here.
  - right. exists idx. now apply list_elem_of_further.
Qed.

(** A successful extraction read its header row from the first row of the
    sheet it selected. *)
Lemma extract_header_row (zip_ref : gmap string member) (o : options)
    (result : result_map) :
  extract zip_ref o = Ok result ->
  exists shared_strings sheet_path name sheet_root first rest header_cells y,
    load_shared_strings zip_ref = Ok shared_strings
    /\ find_sheet_path zip_ref (sheet_name o) = Ok (sheet_path, name)
    /\ read_xml zip_ref sheet_path = Ok sheet_root
    /\ findall sheet_root (main "row") = first :: rest
    /\ parse_row first shared_strings 100 = Ok header_cells
    /\ language_columns y = identify_language_columns o (build_headers header_cells)
    /\ extract_rows o y shared_strings [] (first :: rest) = Ok result.
Proof.
  intros Hrun. unfold extract in Hrun.
  apply bind_Ok in Hrun as (shared_strings & Hsst & Hrun).
  apply bind_Ok in Hrun as ([sheet_path name] & Hpath & Hrun).
  apply bind_Ok in Hrun as (sheet_root & Hroot & Hrun).
  apply bind_Ok in Hrun as (y & Hlayout & Hrun).
  destruct (findall sheet_root (main "row")) as [|first rest] eqn:Hrows; [discriminate|].
  unfold read_layout in Hlayout.
  apply bind_Ok in Hlayout as (header_cells & Hheader & Hl).
  destruct (list_index _ _) as [d|]; [|discriminate]. injection Hl as <-.
  eexists shared_strings, sheet_path, name, sheet_root, first, rest, header_cells, _.
  split; [exact Hsst|]. split; [exact Hpath|]. split; [exact Hroot|].
  split; [exact Hrows|]. split; [exact Hheader|]. split; [|exact Hrun]. reflexivity.
Qed.

(** X11. Every language of the result is the default language or the tag of
    a header of the header row, the first row of the selected sheet, that
    passed as a language header: not empty, not the key, default or an
    excluded name, not starting with [col_]. *)
Theorem result_languages_come_from_headers (zip_ref : gmap string member)
    (o : options) (result : result_map) :
  extract zip_ref o = Ok result ->
  exists shared_strings sheet_path name sheet_root first rest header_cells,
    load_shared_strings zip_ref = Ok shared_strings
    /\ find_sheet_path zip_ref (sheet_name o) = Ok (sheet_path, name)
    /\ read_xml zip_ref sheet_path = Ok sheet_root
    /\ findall sheet_root (main "row") = first :: rest
    /\ parse_row first shared_strings 100 = Ok header_cells
    /\ forall lang,
         lang ∈ dict_keys result ->
         lang = default_lang o
         \/ exists header,
              header ∈ build_headers header_cells
              /\ is_language_header (meta_columns o) header = true
              /\ lang = tag_of_header o header.
Proof.
  intros (shared_strings & sheet_path & name & sheet_root & first & rest
          & header_cells & y & Hsst & Hpath & Hroot & Hrows & Hheader & Hlc & Hrun)
         %extract_header_row.
  exists shared_strings, sheet_path, name, sheet_root, first, rest, header_cells.
  do 5 (split; [assumption|]).
  intros lang Hlang%dict_get_keys.
  assert (H : forall lang, is_Some (dict_get result lang) ->
              lang = default_lang o \/ exists idx, (idx, lang) ∈ language_columns y).
  { apply (extract_rows_invariant_at o y
             (fun result => forall lang, is_Some (dict_get result lang) ->
                lang = default_lang o \/ exists idx, (idx, lang) ∈ language_columns y))
      with (shared_strings := shared_strings) (rows := first :: rest) (result := []);
      [| |exact Hrun].
    - intros cells r Hr l Hsome. unfold extract_cells in Hsome.
      destruct (cell_text cells (default_idx y)); [now apply Hr|].
      apply add_languages_langs in Hsome as [Hsome|?]; [|now right].
      rewrite add_text_get in Hsome.
      destruct (decide (l = default_lang o)); [now left|now apply Hr].
    - intros l [? [=]]. }
  destruct (H lang Hlang) as [->|[idx Hidx]]; [now left|right].
  rewrite Hlc in Hidx. unfold identify_language_columns in Hidx.
  apply language_fold_tags in Hidx as [Hnil|(header & Hin & Hh & ->)];
    [inversion Hnil|eauto].
Qed.

Lemma result_languages_come_from_headers_witness :
  exists shared_strings sheet_path name sheet_root first rest header_cells,
    load_shared_strings Sample.translations = Ok shared_strings
    /\ find_sheet_path Sample.translations (sheet_name default_options)
       = Ok (sheet_path, name)
    /\ read_xml Sample.translations sheet_path = Ok sheet_root
    /\ findall sheet_root (main "row") = first :: rest
    /\ parse_row first shared_strings 100 = Ok header_cells
    /\ forall lang,
         lang ∈ dict_keys [("en", [("greeting", "Hello"); ("Hello", "Hello")]);
                           ("zh-CN", [("greeting", "s2")]);
                           ("fr", [("greeting", "Bonjour")])] ->
         lang = default_lang default_options
         \/ exists header,
              header ∈ build_headers header_cells
              /\ is_language_header (meta_columns default_options) header = true
              /\ lang = tag_of_header default_options header.
Proof.
  exact (result_languages_come_from_headers Sample.translations default_options _ eq_refl).
Defined.

Lemma add_languages_frame (lc : list (Z * string)) (cells : gmap Z string)
    (text_id lang key : string) :
  key <> text_id \/ (forall idx, (idx, lang) ∉ lc) ->
  forall result,
    text_at (add_languages lc cells text_id result) lang key = text_at result lang key.
Proof.
  unfold add_languages.
  induction lc as [|[col_idx lang_code] lc IH]; intros Hframe result; [reflexivity|].
  cbn [foldl]. rewrite IH.
  - destruct (cell_text cells col_idx); [reflexivity|].
    rewrite text_at_add_text. apply decide_False. intros [-> ->].
    destruct Hframe as [Hkey|Hlang]; [congruence|].
    apply (Hlang col_idx), list_elem_of_here.
  - destruct Hframe as [Hkey|Hlang]; [now left|right].
    intros idx Hin. apply (Hlang idx). now apply list_elem_of_further.
Qed.

(** X12. A row touches only the entries under its own effective key, and,
    unless a language column carries the default tag, it sets the default
    language entry of that key to its trimmed default text whatever was
    there: of two rows with one key the later one wins. *)
Theorem row_writes_under_its_key (o : options) (y : layout)
    (cells : gmap Z string) (result : result_map) :
  cell_text cells (default_idx y) <> EmptyString ->
  let default_value := cell_text cells (default_idx y) in
  let text_id := text_id_of (key_value_of (key_idx y) cells) default_value in
  (forall lang key,
      key <> text_id ->
      text_at (extract_cells o y cells result) lang key = text_at result lang key)
  /\ ((forall idx, (idx, default_lang o) ∉ language_columns y) ->
      text_at (extract_cells o y cells result) (default_lang o) text_id
      = Some default_value).
Proof.
  intros Hd default_value text_id.
  assert (Hcells : extract_cells o y cells result
                   = add_languages (language_columns y) cells text_id
                       (add_text result (default_lang o) text_id default_value)).
  { unfold extract_cells. fold default_value. fold text_id.
    destruct default_value eqn:?; [contradiction|reflexivity]. }
  rewrite Hcells. split.
  - intros lang key Hkey. rewrite add_languages_frame by now left.
    rewrite text_at_add_text. apply decide_False. tauto.
  - intros Hlang. rewrite add_languages_frame by now right.
    rewrite text_at_add_text. now apply decide_True.
Qed.

Lemma row_writes_under_its_key_witness :
  let o := default_options in
  let y := {| max_col := 3; language_columns := [(2, "zh-CN"); (3, "fr")];
              key_idx := Some 0; default_idx := 1; actual_end_row := 3 |} in
  let cells : gmap Z string := {[ 0 := "greeting"; 1 := "Hi"; 3 := "Salut" ]} in
  let result := [("en", [("greeting", "Hello")]); ("fr", [("greeting", "Bonjour")])] in
  (forall lang key,
      key <> "greeting" ->
      text_at (extract_cells o y cells result) lang key = text_at result lang key)
  /\ ((forall idx, (idx, default_lang o) ∉ language_columns y) ->
      text_at (extract_cells o y cells result) (default_lang o) "greeting"
      = Some "Hi").
Proof.
  intros o y cells result.
  apply (row_writes_under_its_key o y cells result).
  vm_compute. discriminate.
Defined.

(** ** Row bounds given by the caller *)

Lemma read_layout_end_row (o : options) (shared_strings : list string)
    (rows : list element) (y : layout) :
  read_layout o shared_strings rows = Ok y ->
  actual_end_row y = effective_end_row o rows.
Proof.
  unfold read_layout. destruct rows as [|first rest]; [discriminate|].
  intros (header_cells & _ & Hy)%bind_Ok.
  destruct (list_index _ _); [|discriminate]. now injection Hy as <-.
Qed.

(** X13. With an end row given (and not 0), a row whose number parses is
    extracted exactly when the number lies between the start row and the end
    row, bounds included; an end row of 0 counts as not given. *)
Theorem explicit_end_row_gate (o : options) (shared_strings : list string)
    (rows : list element) (y : layout) (e : Z) (row_elem : element) (row_num : Z)
    (result : result_map) :
  read_layout o shared_strings rows = Ok y ->
  end_row o = Some e ->
  row_number row_elem = Ok row_num ->
  (e <> 0 ->
   extract_row o y shared_strings result row_elem
   = if decide (start_row o <= row_num <= e)
     then cells_dict ← parse_row row_elem shared_strings (max_col y);
          Ok (extract_cells o y cells_dict result)
     else Ok result)
  /\ (e = 0 -> actual_end_row y = Z.of_nat (length rows)).
Proof.
  intros Hlayout He Hnum. apply read_layout_end_row in Hlayout. split.
  - intros Hne. rewrite (extract_row_gate o y shared_strings result row_elem row_num Hnum).
    now rewrite Hlayout, (effective_end_row_given o rows e He Hne).
  - intros ->. rewrite Hlayout. unfold effective_end_row. now rewrite He.
Qed.

Lemma explicit_end_row_gate_witness :
  let o := Sample.with_end 5 in
  let y := {| max_col := 3; language_columns := [(2, "zh-CN"); (3, "fr")];
              key_idx := Some 0; default_idx := 1; actual_end_row := 5 |} in
  let row_elem := Build.row "5" [Build.c "A5" "late"; Build.c "B5" "Five"] in
  (5 <> 0 ->
   extract_row o y [] [] row_elem
   = if decide (start_row o <= 5 <= 5)
     then cells_dict ← parse_row row_elem [] (max_col y);
          Ok (extract_cells o y cells_dict [])
     else Ok [])
  /\ (5 = 0 -> actual_end_row y = Z.of_nat (length Sample.sparse_rows)).
Proof.
  intros o y row_elem.
  apply (explicit_end_row_gate o [] Sample.sparse_rows y 5 row_elem 5 []);
    vm_compute; reflexivity.
Defined.

(** ** Failures before the first row *)

(** X14. A sheet without any row makes the conversion raise [ValueError],
    and nothing is written. *)
Theorem empty_sheet_fails (fs : gmap string file) (input_path output_path : string)
    (o : options) (zip_ref : gmap string member) (shared_strings : list string)
    (sheet_path : string) (name : option string) (sheet_root : element) :
  fs !! input_path = Some (ZipFile zip_ref) ->
  load_shared_strings zip_ref = Ok shared_strings ->
  find_sheet_path zip_ref (sheet_name o) = Ok (sheet_path, name) ->
  read_xml zip_ref sheet_path = Ok sheet_root ->
  findall sheet_root (main "row") = [] ->
  convert_to_i18n_json fs input_path output_path o = (fs, Raise ValueError).
Proof.
  intros Hin Hsst Hpath Hroot Hrows.
  unfold convert_to_i18n_json, extract. rewrite Hin, Hsst. cbn.
  rewrite Hpath. cbn. rewrite Hroot. cbn. now rewrite Hrows.
Qed.

Lemma empty_sheet_fails_witness :
  let fs : gmap string file := {[ "in.xlsx" := ZipFile (Build.xlsx [] []) ]} in
  convert_to_i18n_json fs "in.xlsx" "out.json" default_options = (fs, Raise ValueError).
Proof.
  intros fs.
  apply (empty_sheet_fails fs "in.xlsx" "out.json" default_options
           (Build.xlsx [] []) [] "xl/worksheets/sheet1.xml" (Some "Sheet1")
           (Build.sheet []));
    vm_compute; reflexivity.
Defined.

(** ** Escaping *)

Lemma unescape_escape (c : ascii) (rest : string) :
  unescape_one (Json.escape c +:+ rest) = Some (c, rest).
Proof. destruct c as [[] [] [] [] [] [] [] []]; reflexivity. Qed.

Lemma escape_all_injective (s1 : string) :
  forall s2,
    Json.escape_all s1 +:+ String Json.quote EmptyString
    = Json.escape_all s2 +:+ String Json.quote EmptyString ->
    s1 = s2.
Proof.
  induction s1 as [|c1 s1 IH]; intros [|c2 s2] Heq; [reflexivity| | |].
  - apply (f_equal unescape_one) in Heq. cbn [Json.escape_all] in Heq.
    rewrite append_assoc, unescape_escape in Heq.
    injection Heq as _ Hrest. destruct (Json.escape_all s2); discriminate.
  - apply (f_equal unescape_one) in Heq. cbn [Json.escape_all] in Heq.
    rewrite append_assoc, unescape_escape in Heq.
    injection Heq as _ Hrest. destruct (Json.escape_all s1); discriminate.
  - apply (f_equal unescape_one) in Heq. cbn [Json.escape_all] in Heq.
    rewrite !append_assoc, !unescape_escape in Heq.
    injection Heq as -> Hrest. f_equal. now apply IH.
Qed.

(** X15. Escaping loses nothing: two texts with the same JSON string
    encoding are the same text. *)
Theorem encode_str_injective (s1 s2 : string) :
  Json.encode_str s1 = Json.encode_str s2 -> s1 = s2.
Proof.
  unfold Json.encode_str. intros [= Heq]. now apply escape_all_injective.
Qed.

Lemma encode_str_injective_witness :
  String (Py.chr 10) "a" = String (Py.chr 10) "a".
Proof.
  apply (encode_str_injective (String (Py.chr 10) "a") (String (Py.chr 10) "a")).
  reflexivity.
Defined.

(** ** What [main] reports *)

(** X17. How [main] reports the failures on the way to the sheet: a missing
    input file gives the one-line error; an input that is no archive, and an
    archive without [xl/workbook.xml], give the unexpected-error report with
    its traceback. The status is 1 and nothing is written in each case. *)
Theorem main_failure_reports (fs : gmap string file) (args : Cli.namespace) :
  (fs !! Cli.input_file args = None ->
   Cli.main fs args = (fs, Cli.ErrorLine, 1))
  /\ (forall content,
        fs !! Cli.input_file args = Some (OtherFile content) ->
        Cli.main fs args = (fs, Cli.UnexpectedTraceback, 1))
  /\ (forall zip_ref,
        fs !! Cli.input_file args = Some (ZipFile zip_ref) ->
        zip_ref !! "xl/workbook.xml" = None ->
        Cli.main fs args = (fs, Cli.UnexpectedTraceback, 1)).
Proof.
  unfold Cli.main, convert_to_i18n_json. split; [|split].
  - now intros ->.
  - now intros content ->.
  - intros zip_ref -> Hwb.
    assert (Hrun : extract zip_ref (Cli.options_of args) = Raise KeyError
                   \/ extract zip_ref (Cli.options_of args) = Raise ParseError).
    { unfold extract, load_shared_strings.
      destruct (zip_ref !! "xl/sharedStrings.xml") as [[root|]|]; [|now right|];
        left; cbn; unfold find_sheet_path, read_xml; now rewrite Hwb. }
    now destruct Hrun as [-> | ->].
Qed.

(** ** Finding the sheet *)

Section registry.
Context {A K V : Type} `{EqDecision K} (key : A -> K) (value : A -> V).

Lemma registry_entries (l : list A) :
  forall (acc : list (K * V)) k v,
    (k, v) ∈ foldl (fun d a => dict_set d (key a) (value a)) acc l ->
    (k, v) ∈ acc \/ exists a, a ∈ l /\ key a = k /\ value a = v.
Proof.
  induction l as [|a l IH]; intros acc k v; cbn [foldl]; [now left|].
  intros [Hin|(a' & Ha' & Hk & Hv)]%IH.
  - apply elem_of_dict_set in Hin as [[-> ->]|Hin]; [|now left].
    right. exists a. split; [apply list_elem_of_here|now split].
  - right. exists a'. split; [now apply list_elem_of_further|now split].
Qed.

Lemma registry_first (l : list A) :
  forall (acc : list (K * V)) k0 v0,
    exists v d,
      foldl (fun d a => dict_set d (key a) (value a)) ((k0, v0) :: acc) l = (k0, v) :: d.
Proof.
  induction l as [|a l IH]; intros acc k0 v0; cbn [foldl]; [eauto|].
  cbn [dict_set]. destruct (decide (key a = k0)); apply IH.
Qed.

End registry.

Lemma dict_get_Some_elem {K V : Type} `{EqDecision K} (d : list (K * V)) (k : K) (v : V) :
  dict_get d k = Some v -> (k, v) ∈ d.
Proof.
  induction d as [|[k0 v0] d IH]; cbn; [discriminate|].
  destruct (decide (k = k0)) as [->|Hne].
  - intros [= ->]. apply list_elem_of_here.
  - intros Hd. now apply list_elem_of_further, IH.
Qed.

(** X18. What [find_sheet_path] returns: the path is [xl/] followed by the
    target of a relationship whose id is the relationship id registered for
    a sheet of the workbook; the name returned is the name of that sheet,
    and it is the name asked for when one was given. *)
Theorem find_sheet_path_result (zip_ref : gmap string member)
    (sheet_name : option string) (sheet_path : string) (target_name : option string) :
  find_sheet_path zip_ref sheet_name = Ok (sheet_path, target_name) ->
  exists wb_root rels_root sheet rel target,
    read_xml zip_ref "xl/workbook.xml" = Ok wb_root
    /\ read_xml zip_ref "xl/_rels/workbook.xml.rels" = Ok rels_root
    /\ sheet ∈ findall wb_root (main "sheet")
    /\ attr sheet "name" = target_name
    /\ rel ∈ findall rels_root (qname pkg_rel_ns "Relationship")
    /\ attr rel "Id" = attr sheet (qname rel_ns "id")
    /\ attr rel "Target" = Some target
    /\ sheet_path = "xl/" +:+ target
    /\ (forall name, truthy sheet_name = Some name -> target_name = Some name).
Proof.
  unfold find_sheet_path.
  intros (wb_root & Hwb & Hrun)%bind_Ok.
  apply bind_Ok in Hrun as ([tn rid] & Htarget & Hrun).
  apply bind_Ok in Hrun as (rels_root & Hrels & Hrun).
  set (sheets := foldl _ [] (findall wb_root (main "sheet"))) in Htarget.
  assert (Hsheet : (tn, rid) ∈ sheets
                   /\ forall name, truthy sheet_name = Some name -> tn = Some name).
  { destruct sheets as [|[first_name first_rid] more] eqn:Hsheets; [discriminate|].
    destruct (truthy sheet_name) as [name|].
    - destruct (dict_get _ (Some name)) as [r|] eqn:Hget.
      + injection Htarget as <- <-. split; [now apply dict_get_Some_elem|].
        now intros ? [= <-].
      + destruct (forallb _ _); discriminate.
    - injection Htarget as <- <-. split; [apply list_elem_of_here|discriminate]. }
  destruct Hsheet as [Hin Hname].
  apply registry_entries in Hin as [Hnil|(sheet & Hsheet & <- & <-)]; [inversion Hnil|].
  destruct (List.filter _ _) as [|rel more] eqn:Hfilter; [discriminate|].
  assert (Hrel : In rel (List.filter
                           (fun rel => bool_decide (attr rel "Id"
                                                    = attr sheet (qname rel_ns "id")))
                           (findall rels_root (qname pkg_rel_ns "Relationship"))))
    by (rewrite Hfilter; now left).
  apply filter_In in Hrel as [Hrel Hid]. apply bool_decide_eq_true in Hid.
  destruct (attr rel "Target") as [target|] eqn:Htargetattr; [|discriminate].
  injection Hrun as <- <-.
  exists wb_root, rels_root, sheet, rel, target.
  repeat split; try assumption; try reflexivity.
  now apply list_elem_of_In.
Qed.

Lemma find_sheet_path_result_witness :
  exists wb_root rels_root sheet rel target,
    read_xml Sample.translations "xl/workbook.xml" = Ok wb_root
    /\ read_xml Sample.translations "xl/_rels/workbook.xml.rels" = Ok rels_root
    /\ sheet ∈ findall wb_root (main "sheet")
    /\ attr sheet "name" = Some "Sheet1"
    /\ rel ∈ findall rels_root (qname pkg_rel_ns "Relationship")
    /\ attr rel "Id" = attr sheet (qname rel_ns "id")
    /\ attr rel "Target" = Some target
    /\ "xl/worksheets/sheet1.xml" = "xl/" +:+ target
    /\ (forall name, truthy (Some "Sheet1") = Some name -> Some "Sheet1" = Some name).
Proof.
  apply (find_sheet_path_result Sample.translations (Some "Sheet1")
           "xl/worksheets/sheet1.xml" (Some "Sheet1")).
  vm_compute. reflexivity.
Defined.

Lemma registry_lookup {A K V : Type} `{EqDecision K} (key : A -> K) (value : A -> V)
    (l : list A) (k : K) :
  forall acc : list (K * V),
    dict_get (foldl (fun d a => dict_set d (key a) (value a)) acc l) k
    = match last (filter (fun a => key a = k) l) with
      | Some a => Some (value a)
      | None => dict_get acc k
      end.
Proof.
  induction l as [|a l IH]; intros acc; [reflexivity|].
  cbn [foldl]. rewrite IH, filter_cons.
  destruct (decide (key a = k)) as [Hk|Hk].
  - rewrite last_cons.
    destruct (last (filter (fun a => key a = k) l)); [reflexivity|].
    rewrite <- Hk. apply dict_get_set_eq.
  - destruct (last (filter (fun a => key a = k) l)); [reflexivity|].
    now apply dict_get_set_ne.
Qed.

Lemma filter_first (f : element -> bool) (l : list element) (x : element)
    (m : list element) :
  List.filter f l = x :: m ->
  exists before after,
    l = before ++ x :: after /\ f x = true /\ forall y, y ∈ before -> f y = false.
Proof.
  induction l as [|a l IH]; cbn [List.filter]; [discriminate|].
  destruct (f a) eqn:Ha.
  - intros [= -> <-]. exists [], l. split; [reflexivity|]. split; [exact Ha|].
    intros y Hy. inversion Hy.
  - intros (before & after & -> & Hx & Hb)%IH.
    exists (a :: before), after. split; [reflexivity|]. split; [exact Hx|].
    intros y [->|Hy]%elem_of_cons; [exact Ha|now apply Hb].
Qed.

(** X19. Without a sheet name, or with the empty name, the name taken is
    that of the first sheet element.  The part opened is [xl/] followed by
    the target of the first relationship whose id is the relationship id of
    the last sheet element carrying that name: the first sheet element
    itself when no later one repeats its name. *)
Theorem find_sheet_path_default_is_first (zip_ref : gmap string member)
    (sheet_name : option string) (wb_root first : element) (others : list element)
    (sheet_path : string) (target_name : option string) :
  truthy sheet_name = None ->
  read_xml zip_ref "xl/workbook.xml" = Ok wb_root ->
  findall wb_root (main "sheet") = first :: others ->
  find_sheet_path zip_ref sheet_name = Ok (sheet_path, target_name) ->
  target_name = attr first "name"
  /\ exists sheet rels_root before rel after target,
       last (filter (fun s => attr s "name" = attr first "name") (first :: others))
       = Some sheet
       /\ ((forall s, s ∈ others -> attr s "name" <> attr first "name") -> sheet = first)
       /\ read_xml zip_ref "xl/_rels/workbook.xml.rels" = Ok rels_root
       /\ findall rels_root (qname pkg_rel_ns "Relationship") = before ++ rel :: after
       /\ (forall x, x ∈ before -> attr x "Id" <> attr sheet (qname rel_ns "id"))
       /\ attr rel "Id" = attr sheet (qname rel_ns "id")
       /\ attr rel "Target" = Some target
       /\ sheet_path = "xl/" +:+ target.
Proof.
  intros Hname Hwb Hsheets. unfold find_sheet_path.
  rewrite Hwb. cbn [mbind res_bind]. rewrite Hsheets, Hname.
  set (sheets := foldl _ [] (first :: others)).
  pose proof (registry_lookup (fun s => attr s "name")
                (fun s => attr s (qname rel_ns "id"))
                (first :: others) (attr first "name") []) as Hlookup.
  change (dict_get sheets (attr first "name")
          = match last (filter (fun s => attr s "name" = attr first "name")
                          (first :: others)) with
            | Some a => Some (attr a (qname rel_ns "id"))
            | None => None
            end) in Hlookup.
  destruct (registry_first (fun s => attr s "name") (fun s => attr s (qname rel_ns "id"))
              others [] (attr first "name") (attr first (qname rel_ns "id")))
    as (rid & d & Hhead).
  change (sheets = (attr first "name", rid) :: d) in Hhead.
  rewrite Hhead in Hlookup |- *. cbn [dict_get] in Hlookup.
  rewrite decide_True in Hlookup by reflexivity.
  destruct (last (filter _ (first :: others))) as [sheet|] eqn:Hlast; [|discriminate].
  injection Hlookup as ->.
  cbn [mbind res_bind].
  destruct (read_xml zip_ref "xl/_rels/workbook.xml.rels") as [rels_root|] eqn:Hrels;
    cbn [mbind res_bind]; [|discriminate].
  destruct (List.filter _ _) as [|rel more] eqn:Hfilter; [discriminate|].
  destruct (attr rel "Target") as [target|] eqn:Htarget; [|discriminate].
  intros [= <- <-]. split; [reflexivity|].
  apply filter_first in Hfilter as (before & after & Hsplit & Hid & Hbefore).
  exists sheet, rels_root, before, rel, after, target.
  split; [reflexivity|]. split.
  { intros Hdistinct. rewrite filter_cons, decide_True in Hlast by reflexivity.
    assert (Hnone : filter (fun s => attr s "name" = attr first "name") others = []).
    { clear -Hdistinct. induction others as [|s l IH]; [reflexivity|].
      rewrite filter_cons, decide_False by (apply Hdistinct, list_elem_of_here).
      apply IH. intros x Hx. now apply Hdistinct, list_elem_of_further. }
    rewrite Hnone in Hlast. now injection Hlast as <-. }
  split; [reflexivity|]. split; [exact Hsplit|]. split.
  { intros x Hx Heq. specialize (Hbefore x Hx).
    now rewrite bool_decide_eq_true_2 in Hbefore. }
  split; [now apply bool_decide_eq_true in Hid|]. now split.
Qed.

Lemma find_sheet_path_default_is_first_witness :
  let first := Element (main "sheet")
                 [("name", "Sheet1"); ("sheetId", "1"); (qname rel_ns "id", "rId1")]
                 None [] in
  Some "Sheet1" = attr first "name"
  /\ exists sheet rels_root before rel after target,
       last (filter (fun s => attr s "name" = attr first "name") (first :: []))
       = Some sheet
       /\ ((forall s, s ∈ [] -> attr s "name" <> attr first "name") -> sheet = first)
       /\ read_xml Sample.translations "xl/_rels/workbook.xml.rels" = Ok rels_root
       /\ findall rels_root (qname pkg_rel_ns "Relationship") = before ++ rel :: after
       /\ (forall x, x ∈ before -> attr x "Id" <> attr sheet (qname rel_ns "id"))
       /\ attr rel "Id" = attr sheet (qname rel_ns "id")
       /\ attr rel "Target" = Some target
       /\ "xl/worksheets/sheet1.xml" = "xl/" +:+ target.
Proof.
  intros first.
  apply (find_sheet_path_default_is_first Sample.translations (Some "")
           Build.workbook first [] "xl/worksheets/sheet1.xml" (Some "Sheet1"));
    vm_compute; reflexivity.
Defined.

(** ** Shared strings made of runs *)

Lemma filter_runs (tag : string) (runs : list string) :
  List.filter (fun x => String.eqb (tag_of x) tag) (flat_map iter (RichText.r <$> runs))
  = if String.eqb (main "r") tag then RichText.r <$> runs
    else if String.eqb (main "t") tag then RichText.t <$> runs
    else [].
Proof.
  induction runs as [|text runs IH].
  - change (flat_map iter (RichText.r <$> [])) with (@nil element).
    cbn [List.filter].
    destruct (String.eqb (main "r") tag); [reflexivity|].
    destruct (String.eqb (main "t") tag); reflexivity.
  - change (flat_map iter (RichText.r <$> text :: runs))
      with (RichText.r text :: RichText.t text :: flat_map iter (RichText.r <$> runs)).
    cbn [List.filter]. rewrite IH.
    change (tag_of (RichText.r text)) with (main "r").
    change (tag_of (RichText.t text)) with (main "t").
    destruct (String.eqb_spec (main "r") tag) as [<-|Hr].
    + reflexivity.
    + destruct (String.eqb (main "t") tag); reflexivity.
Qed.

Lemma findall_items (items : list (list string)) :
  findall (RichText.sst items) (main "si") = RichText.si <$> items.
Proof.
  unfold findall. change (children_of (RichText.sst items)) with (RichText.si <$> items).
  induction items as [|runs items IH]; [reflexivity|].
  change (flat_map iter (RichText.si <$> runs :: items))
    with ((RichText.si runs :: flat_map iter (RichText.r <$> runs))
            ++ flat_map iter (RichText.si <$> items)).
  rewrite List.filter_app, IH. cbn [List.filter app].
  change (tag_of (RichText.si runs)) with (main "si").
  rewrite String.eqb_refl, filter_runs. reflexivity.
Qed.

Lemma join_runs (runs : list string) :
  join_texts (omap (fun x => truthy (text_of x)) (RichText.t <$> runs)) = join_texts runs.
Proof.
  induction runs as [|text runs IH]; [reflexivity|].
  cbn [fmap list_fmap omap list_omap]. change (text_of (RichText.t text)) with (Some text).
  destruct text as [|c text]; cbn [truthy join_texts foldr]; [exact IH|].
  fold (join_texts runs). fold (join_texts (omap (fun x => truthy (text_of x)) (RichText.t <$> runs))).
  now rewrite IH.
Qed.

(** X20. A shared-string part whose items are made of text runs loads as one
    string per item, in order, each the runs of its item joined without a
    separator. *)
Theorem load_shared_strings_joins_runs (zip_ref : gmap string member)
    (items : list (list string)) :
  zip_ref !! "xl/sharedStrings.xml" = Some (Xml (RichText.sst items)) ->
  load_shared_strings zip_ref = Ok (join_texts <$> items).
Proof.
  intros Hpart. unfold load_shared_strings. rewrite Hpart, findall_items.
  f_equal. rewrite <- list_fmap_compose. apply list_fmap_ext.
  intros _ runs _. cbn.
  unfold findall. change (children_of (RichText.si runs)) with (RichText.r <$> runs).
  rewrite filter_runs. cbn. apply join_runs.
Qed.

Lemma load_shared_strings_joins_runs_witness :
  load_shared_strings {[ "xl/sharedStrings.xml" :=
                           Xml (RichText.sst [["Hel"; "lo"]; []; ["plain"]]) ]}
  = Ok (join_texts <$> [["Hel"; "lo"]; []; ["plain"]]).
Proof.
  apply (load_shared_strings_joins_runs _ [["Hel"; "lo"]; []; ["plain"]]).
  reflexivity.
Defined.

(** ** Abbreviated tags *)

Lemma normalize_tag_no_underscore (s : string) :
  has_underscore (normalize_tag s) = false
  /\ forall c, has_underscore (normalize_tag (String c s)) = false.
Proof.
  induction s as [|a r [IHr IHc]].
  - split; [reflexivity|]. intros c. cbn [normalize_tag].
    destruct (Ascii.eqb c "_") eqn:Hc; cbn [has_underscore]; [reflexivity|].
    now rewrite Hc.
  - split; [apply IHc|]. intros c. rewrite normalize_tag_cons2.
    destruct (Ascii.eqb c "_") eqn:Hc.
    + destruct (Ascii.eqb a "r"); cbn [has_underscore orb Ascii.eqb];
        [exact IHr|apply IHc].
    + cbn [has_underscore]. rewrite Hc. apply IHc.
Qed.

Lemma normalize_tag_fixed (s : string) :
  has_underscore s = false -> normalize_tag s = s.
Proof.
  induction s as [|c s IH]; [reflexivity|]. cbn [has_underscore normalize_tag].
  intros [Hc Hs]%orb_false_iff. rewrite Hc. now rewrite IH.
Qed.

(** X21. An abbreviated tag has no underscore left, and abbreviating it
    again gives the same tag. *)
Theorem abbreviate_removes_underscores (header : string) :
  has_underscore (abbreviate header) = false
  /\ abbreviate (abbreviate header) = abbreviate header.
Proof.
  rewrite !abbreviate_normalize.
  pose proof (normalize_tag_no_underscore header) as [H _].
  split; [exact H|now apply normalize_tag_fixed].
Qed.

(** ** The default end row on a sheet without gaps *)

(** X22. When the sheet stores its rows without gaps, the i-th row element
    carrying the number i, the end bound used when no end row is given is
    the number of the last row: no stored row lies beyond it. *)
Theorem default_end_row_dense (o : options) (shared_strings : list string)
    (rows : list element) (y : layout) :
  end_row o = None ->
  (forall i row_elem, rows !! i = Some row_elem ->
                      row_number row_elem = Ok (Z.of_nat i + 1)) ->
  read_layout o shared_strings rows = Ok y ->
  (forall last_row, last rows = Some last_row ->
                    row_number last_row = Ok (actual_end_row y))
  /\ (forall row_elem row_num,
        row_elem ∈ rows -> row_number row_elem = Ok row_num ->
        in_range o y row_num = (start_row o <=? row_num)).
Proof.
  intros He Hdense Hlayout. apply read_layout_end_row in Hlayout.
  assert (Hend : actual_end_row y = Z.of_nat (length rows)).
  { rewrite Hlayout. unfold effective_end_row. now rewrite He. }
  split.
  - intros last_row Hlast. rewrite last_lookup in Hlast.
    rewrite (Hdense _ _ Hlast), Hend. f_equal.
    apply lookup_lt_Some in Hlast. lia.
  - intros row_elem row_num [i Hi]%list_elem_of_lookup Hnum.
    rewrite (Hdense i row_elem Hi) in Hnum. injection Hnum as <-.
    apply lookup_lt_Some in Hi. unfold in_range. rewrite Hend.
    destruct (Z.leb_spec (Z.of_nat i + 1) (Z.of_nat (length rows))); [|lia].
    apply andb_true_r.
Qed.

Lemma default_end_row_dense_witness :
  let rows := [ Sample.header;
                Build.row "2" [Build.c "A2" "k"; Build.c "B2" "v"] ] in
  let y := {| max_col := 3; language_columns := [(2, "zh-CN"); (3, "fr")];
              key_idx := Some 0; default_idx := 1; actual_end_row := 2 |} in
  (forall last_row, last rows = Some last_row ->
                    row_number last_row = Ok (actual_end_row y))
  /\ (forall row_elem row_num,
        row_elem ∈ rows -> row_number row_elem = Ok row_num ->
        in_range default_options y row_num = (start_row default_options <=? row_num)).
Proof.
  intros rows y.
  apply (default_end_row_dense default_options [] rows y).
  - reflexivity.
  - intros [|[|i]] row_elem Hrow; try discriminate;
      injection Hrow as <-; vm_compute; reflexivity.
  - vm_compute. reflexivity.
Defined.
